(** * The sysfs feature source of node-feature-discovery

    A shallow embedding of the three versions of [source/sysfs/sysfs.go]
    (the file itself, [part_000] and [part_001]) and the properties of the
    name and value normalisers, the walker and the label export.

    Go strings are byte sequences: they are modelled as [string], whose
    characters are the 256 values of [ascii].  Go [int]s are modelled as
    [Z]; every integer of the program is a length or an index of a string,
    so no 64-bit wrap-around occurs.  A run-time panic (a slice
    out of range) is the [None] of an [option]. *)

From Stdlib Require Import ZArith Ascii String.
From stdpp Require Import gmap strings list fin_maps.

Local Open Scope Z_scope.

(** ** Byte strings and slices *)

Definition len (s : string) : Z := Z.of_nat (String.length s).

Fixpoint str_drop (n : nat) (s : string) : string :=
  match n, s with
  | O, _ => s
  | S _, EmptyString => EmptyString
  | S k, String _ r => str_drop k r
  end.

Fixpoint str_take (n : nat) (s : string) : string :=
  match n, s with
  | O, _ => EmptyString
  | S _, EmptyString => EmptyString
  | S k, String c r => String c (str_take k r)
  end.

(** [s[i:]]: panics unless [0 <= i <= len(s)]. *)
Definition slice_from (s : string) (i : Z) : option string :=
  if decide (0 ≤ i ≤ len s) then Some (str_drop (Z.to_nat i) s) else None.

(** [s[:j]]: panics unless [0 <= j <= len(s)]. *)
Definition slice_to (s : string) (j : Z) : option string :=
  if decide (0 ≤ j ≤ len s) then Some (str_take (Z.to_nat j) s) else None.

(** [strings.Replace(s, old, new, -1)] for one-byte [old] and [new]. *)
Fixpoint replace_byte (old new : ascii) (s : string) : string :=
  match s with
  | EmptyString => EmptyString
  | String c r =>
      String (if Ascii.eqb c old then new else c) (replace_byte old new r)
  end.

(** [strings.Index(s, sep)] for a one-byte [sep]: the index of the first
    occurrence, [-1] when there is none. *)
Fixpoint index_byte (sep : ascii) (s : string) : Z :=
  match s with
  | EmptyString => -1
  | String c r =>
      if Ascii.eqb c sep then 0
      else let i := index_byte sep r in if i <? 0 then -1 else i + 1
  end.

(** [strings.HasPrefix(s, prefix)]. *)
Fixpoint HasPrefix (s pre : string) {struct pre} : bool :=
  match pre, s with
  | EmptyString, _ => true
  | String a pre', String b s' => Ascii.eqb a b && HasPrefix s' pre'
  | String _ _, EmptyString => false
  end.

Definition first_byte (s : string) : option ascii :=
  match s with EmptyString => None | String c _ => Some c end.

Fixpoint last_byte (s : string) : option ascii :=
  match s with
  | EmptyString => None
  | String c EmptyString => Some c
  | String _ r => last_byte r
  end.

Fixpoint all_bytes (P : ascii → bool) (s : string) : bool :=
  match s with
  | EmptyString => true
  | String c r => P c && all_bytes P r
  end.

(** ** Character classes of the regular expressions *)

Definition in_range (lo hi c : ascii) : bool :=
  ((N_of_ascii lo <=? N_of_ascii c) && (N_of_ascii c <=? N_of_ascii hi))%N.

Definition is_alnum (c : ascii) : bool :=
  in_range "A" "Z" c || in_range "a" "z" c || in_range "0" "9" c.

(** The class [[-A-Za-z0-9]]. *)
Definition label_edge (c : ascii) : bool := Ascii.eqb c "-" || is_alnum c.

(** The class [[-A-Za-z0-9_.]]. *)
Definition label_char (c : ascii) : bool :=
  label_edge c || Ascii.eqb c "_" || Ascii.eqb c ".".

(** ASCII punctuation: the printable characters that are neither
    alphanumeric nor the space. *)
Definition is_punct (c : ascii) : bool :=
  in_range "!" "/" c || in_range ":" "@" c || in_range "[" "`" c
  || in_range "{" "~" c.

(** ** Replacement by the regular expressions

    Go's [regexp] reads its input rune by rune; an invalid UTF-8 byte is the
    rune U+FFFD of width one.  Every byte of a rune outside ASCII is at least
    0x80 and every class above is a set of ASCII characters, so a maximal
    run of runes outside such a class is the same as a maximal run of
    bytes outside it: the three expressions that end in [+] are modelled on
    bytes. *)

(** [regexp.MustCompile(`^[^ok]+`).ReplaceAllString(s, "")]. *)
Fixpoint strip_leading (ok : ascii → bool) (s : string) : string :=
  match s with
  | EmptyString => EmptyString
  | String c r => if ok c then s else strip_leading ok r
  end.

(** [regexp.MustCompile(`[^ok]+$`).ReplaceAllString(s, "")]. *)
Fixpoint strip_trailing (ok : ascii → bool) (s : string) : string :=
  match s with
  | EmptyString => EmptyString
  | String c r =>
      match strip_trailing ok r with
      | EmptyString => if ok c then String c EmptyString else EmptyString
      | r' => String c r'
      end
  end.

(** [regexp.MustCompile(`[^ok]+`).ReplaceAllString(s, "_")]; [in_run] tells
    that the bytes just before [s] were part of a match already replaced. *)
Fixpoint collapse_runs (ok : ascii → bool) (in_run : bool) (s : string)
  : string :=
  match s with
  | EmptyString => EmptyString
  | String c r =>
      if ok c then String c (collapse_runs ok false r)
      else if in_run then collapse_runs ok true r
      else String "_" (collapse_runs ok true r)
  end.

(** ** UTF-8 as Go decodes it

    [rune_width s] is the size that [utf8.DecodeRuneInString] reports for
    the first rune of a non-empty [s]: the width of a well-formed encoding,
    and 1 for a byte that starts none (the rune U+FFFD). *)

Definition byte_in (lo hi : N) (c : ascii) : bool :=
  ((lo <=? N_of_ascii c) && (N_of_ascii c <=? hi))%N.

Definition is_cont (c : ascii) : bool := byte_in 128 191 c.

(** Size of the encoding announced by a lead byte, with the range accepted
    for the second byte (the tables [first] and [acceptRanges]). *)
Definition lead_info (c : ascii) : option (nat * N * N) :=
  let n := N_of_ascii c in
  if byte_in 194 223 c then Some (2%nat, 128, 191)%N
  else if (n =? 224)%N then Some (3%nat, 160, 191)%N
  else if byte_in 225 236 c then Some (3%nat, 128, 191)%N
  else if (n =? 237)%N then Some (3%nat, 128, 159)%N
  else if byte_in 238 239 c then Some (3%nat, 128, 191)%N
  else if (n =? 240)%N then Some (4%nat, 144, 191)%N
  else if byte_in 241 243 c then Some (4%nat, 128, 191)%N
  else if (n =? 244)%N then Some (4%nat, 128, 143)%N
  else None.

Definition rune_width (s : string) : nat :=
  match s with
  | EmptyString => 0
  | String b0 r =>
      match lead_info b0, r with
      | Some (sz, lo, hi), String b1 r1 =>
          if negb (byte_in lo hi b1) then 1
          else if (sz =? 2)%nat then 2
          else match r1 with
               | String b2 r2 =>
                   if negb (is_cont b2) then 1
                   else if (sz =? 3)%nat then 3
                   else match r2 with
                        | String b3 _ => if is_cont b3 then 4 else 1
                        | EmptyString => 1
                        end
               | EmptyString => 1
               end
      | _, _ => 1
      end
  end%nat.

(** [regexp.MustCompile(`[^ok]`).ReplaceAllString(s, "_")] for a class [ok]
    of ASCII characters: every rune outside the class, whatever its width,
    becomes one [_].  [skip] counts the bytes of the current rune that are
    still to be passed over. *)
Fixpoint replace_runes (ok : ascii → bool) (skip : nat) (s : string)
  : string :=
  match s with
  | EmptyString => EmptyString
  | String c r =>
      match skip with
      | S k => replace_runes ok k r
      | O =>
          if ok c then String c (replace_runes ok 0 r)
          else String "_" (replace_runes ok (Nat.pred (rune_width s)) r)
      end
  end.

(** Width in bytes of the white-space rune ([unicode.IsSpace]) that [s]
    starts with; 0 when it starts with none.  The runes are U+0009..U+000D,
    U+0020, U+0085, U+00A0, U+1680, U+2000..U+200A, U+2028, U+2029, U+202F,
    U+205F and U+3000. *)
Definition space_width (s : string) : nat :=
  match s with
  | EmptyString => 0
  | String b0 r =>
      if byte_in 9 13 b0 || byte_in 32 32 b0 then 1
      else match r with
           | String b1 r1 =>
               if byte_in 194 194 b0 && (byte_in 133 133 b1 || byte_in 160 160 b1)
               then 2
               else match r1 with
                    | String b2 _ =>
                        let n0 := N_of_ascii b0 in
                        let n1 := N_of_ascii b1 in
                        let n2 := N_of_ascii b2 in
                        if ((n0 =? 225) && (n1 =? 154) && (n2 =? 128))%N
                           || ((n0 =? 226) && (n1 =? 128)
                               && (byte_in 128 138 b2 || byte_in 168 169 b2
                                   || (n2 =? 175)))%N
                           || ((n0 =? 226) && (n1 =? 129) && (n2 =? 159))%N
                           || ((n0 =? 227) && (n1 =? 128) && (n2 =? 128))%N
                        then 3 else 0
                    | EmptyString => 0
                    end
           | EmptyString => 0
           end
  end%nat.

(** [strings.TrimLeftFunc(s, unicode.IsSpace)]. *)
Fixpoint trim_left (skip : nat) (s : string) : string :=
  match s with
  | EmptyString => EmptyString
  | String _ r =>
      match skip with
      | S k => trim_left k r
      | O => match space_width s with
             | O => s
             | S k => trim_left k r
             end
      end
  end.

(** [strings.TrimRightFunc(s, unicode.IsSpace)]: the longest suffix made of
    white-space runes is removed. *)
Fixpoint trim_right (s : string) : string :=
  match s with
  | EmptyString => EmptyString
  | String c r =>
      if decide (trim_left 0 s = "") then EmptyString
      else String c (trim_right r)
  end.

(** [strings.TrimSpace]. *)
Definition TrimSpace (s : string) : string := trim_right (trim_left 0 s).

(** ** Paths: [path/filepath] on Unix *)

(** [filepath.IsAbs]. *)
Definition IsAbs (path : string) : bool := HasPrefix path "/".

(** [strings.Split(s, "/")]. *)
Fixpoint split_path (s : string) : list string :=
  match s with
  | EmptyString => [EmptyString]
  | String c r =>
      if Ascii.eqb c "/" then EmptyString :: split_path r
      else match split_path r with
           | seg :: segs => String c seg :: segs
           | [] => [String c EmptyString]
           end
  end.

(** [strings.Join(elems, "/")]. *)
Fixpoint join_path (elems : list string) : string :=
  match elems with
  | [] => EmptyString
  | [e] => e
  | e :: rest => e +:+ String "/" (join_path rest)
  end.

(** The rules of [filepath.Clean] on the elements of a path: empty and [.]
    elements go, a [..] removes the element before it, a [..] at the start
    of a rooted path goes and at the start of a relative path stays.  [out]
    holds the elements kept so far, the last one first. *)
Fixpoint clean_elems (rooted : bool) (out elems : list string)
  : list string :=
  match elems with
  | [] => reverse out
  | e :: rest =>
      if decide (e = "" ∨ e = ".") then clean_elems rooted out rest
      else if decide (e = "..") then
        match out with
        | top :: out' =>
            if decide (top = "..") then clean_elems rooted (e :: out) rest
            else clean_elems rooted out' rest
        | [] =>
            if rooted then clean_elems rooted [] rest
            else clean_elems rooted [e] rest
        end
      else clean_elems rooted (e :: out) rest
  end.

(** [filepath.Clean]. *)
Definition Clean (path : string) : string :=
  if decide (path = "") then "."
  else
    let out := join_path (clean_elems (IsAbs path) [] (split_path path)) in
    if IsAbs path then String "/" out
    else if decide (out = "") then "." else out.

(** [filepath.Join]: the elements from the first non-empty one on are joined
    with [/] and the result is cleaned. *)
Fixpoint Join (elem : list string) : string :=
  match elem with
  | [] => EmptyString
  | e :: rest => if decide (e = "") then Join rest else Clean (join_path elem)
  end.

(** ** The file system, as far as the walker looks at it *)

Inductive os_error := ENOENT | EACCES | EISDIR | EIO | EOF.

(** [os.IsPermission]. *)
Definition IsPermission (e : os_error) : bool :=
  match e with EACCES => true | _ => false end.

(** What lies at a real path: nothing, a directory, a regular file that can
    be read, or a regular file whose content cannot be read, with the error
    the attempt gives ([EACCES] for permission denied). *)
Inductive node :=
  | Absent
  | Directory
  | Regular (content : string)
  | Unreadable (e : os_error).

Definition filesystem := string → node.

Inductive result (A : Type) :=
  | Ok (a : A)
  | Err (e : os_error).
Arguments Ok {A} a.
Arguments Err {A} e.

(** [os.Stat]: the value is [FileInfo.IsDir()]. *)
Definition os_Stat (fs : filesystem) (path : string) : result bool :=
  match fs path with
  | Absent => Err ENOENT
  | Directory => Ok true
  | Regular _ | Unreadable _ => Ok false
  end.

(** [os.ReadFile]. *)
Definition os_ReadFile (fs : filesystem) (path : string) : result string :=
  match fs path with
  | Absent => Err ENOENT
  | Directory => Err EISDIR
  | Regular content => Ok content
  | Unreadable e => Err e
  end.

(** [os.Open]: a directory opens like a file; the open file is represented
    by its node.  Permission is checked when the file is opened. *)
Definition os_Open (fs : filesystem) (path : string) : result node :=
  match fs path with
  | Absent => Err ENOENT
  | Unreadable e => if IsPermission e then Err e else Ok (Unreadable e)
  | n => Ok n
  end.

(** [file.Read(buf)] on a file just opened, with [n] the size of [buf]: the
    first [n] bytes, [io.EOF] when there is none, [EISDIR] on a
    directory. *)
Definition file_Read (file : node) (n : nat) : result string :=
  match file with
  | Absent => Err ENOENT
  | Directory => Err EISDIR
  | Regular content =>
      if decide (content = "") then Err EOF else Ok (str_take n content)
  | Unreadable e => Err e
  end.

(** The errors that [readSingleParameter] builds with [fmt.Errorf]. *)
Inductive error :=
  | FailedToOpen (attrPath : string) (cause : os_error)
  | FailedToRead (attrPath : string) (cause : os_error).

(** ** The source object

    [features] stands for [s.features.Attributes["attribute"].Elements];
    [None] is the state in which that map does not exist ([s.features] is
    [nil], or was just made by [NewFeatures]): ranging over it visits
    nothing. *)

Record Config := { SysfsWhitelist : list string }.

Record sysfsSource := {
  config : Config;
  features : option (gmap string string)
}.

Definition newDefaultConfig : Config := {| SysfsWhitelist := [""] |}.

Definition GetFeatures (s : sysfsSource) : gmap string string :=
  default ∅ (features s).

(** [for key, value := range m]: Go fixes no order, so an execution visits
    the entries of [m] in some order [entries]. *)
Definition range_order (m : gmap string string)
    (entries : list (string * string)) : Prop :=
  entries ≡ₚ map_to_list m.

(** ** sysfs.go *)

Module Sysfs.

Definition buildAttributeName (attr : string) : option string :=
  name ← slice_from (replace_byte "/" "." attr) 1;
  if decide (len name > 64) then slice_from name (len name - 64)
  else Some name.

(** The loop of [GetLabels] over the entries in the order visited. *)
Fixpoint GetLabels_range (entries : list (string * string))
    (labels : gmap string string) : gmap string string :=
  match entries with
  | [] => labels
  | (key, value) :: rest =>
      let key := replace_runes label_char 0 key in
      let value := replace_runes label_char 0 value in
      GetLabels_range rest (<[key := value]> labels)
  end.

Definition GetLabels (s : sysfsSource)
    (ret : gmap string string * option error) : Prop :=
  ∃ entries, range_order (GetFeatures s) entries
             ∧ ret = (GetLabels_range entries ∅, None).

Section Walker.
(** [hostpath.SysfsDir.Path], the mapping of a path of the attribute tree
    to the place where the tree is mounted, and the file system. *)
Variable SysfsDir_Path : string → string.
Variable fs : filesystem.

Definition readSingleParameter (attrPath : string)
  : string * option error :=
  match os_Open fs attrPath with
  | Err err => ("", Some (FailedToOpen attrPath err))
  | Ok file =>
      match file_Read file 62 with
      | Err err => ("", Some (FailedToRead attrPath err))
      | Ok bytes => (TrimSpace bytes, None)
      end
  end.

(** The path that [Discover] looks up for a whitelist entry. *)
Definition logical_path (attr : string) : string :=
  let attr := if negb (IsAbs attr) then Join ["/"; attr] else attr in
  Clean attr.

(** One turn of the loop of [Discover]. *)
Definition Discover_entry (elements : gmap string string) (attr : string)
  : option (gmap string string) :=
  let attr := logical_path attr in
  let sysfsBasePath := SysfsDir_Path attr in
  match readSingleParameter sysfsBasePath with
  | (_, Some err) => Some elements
  | (paramVal, None) =>
      name ← buildAttributeName attr;
      Some (<[name := paramVal]> elements)
  end.

Fixpoint Discover_loop (whitelist : list string)
    (elements : gmap string string) : option (gmap string string) :=
  match whitelist with
  | [] => Some elements
  | attr :: rest =>
      elements ← Discover_entry elements attr;
      Discover_loop rest elements
  end.

Definition Discover (s : sysfsSource)
  : option (sysfsSource * option error) :=
  elements ← Discover_loop (SysfsWhitelist (config s)) ∅;
  Some ({| config := config s; features := Some elements |}, None).
End Walker.

End Sysfs.

(** ** part_000 *)

Module Part000.

Definition buildAttributeName (attr : string) : option string :=
  name ← slice_from (replace_byte "/" "." attr) 1;
  if decide (len name > 64) then slice_from name (len name - 64)
  else Some name.

Fixpoint GetLabels_range (entries : list (string * string))
    (labels : gmap string string) : gmap string string :=
  match entries with
  | [] => labels
  | (key, value) :: rest => GetLabels_range rest (<[key := value]> labels)
  end.

Definition GetLabels (s : sysfsSource)
    (ret : gmap string string * option error) : Prop :=
  ∃ entries, range_order (GetFeatures s) entries
             ∧ ret = (GetLabels_range entries ∅, None).

Section Walker.
Variable SysfsDir_Path : string → string.
Variable fs : filesystem.

Definition readSingleParameter (attrPath : string)
  : option (string * option error) :=
  match os_ReadFile fs attrPath with
  | Err err => Some ("", Some (FailedToRead attrPath err))
  | Ok data =>
      let value := strip_leading label_char data in
      let value := collapse_runs label_char false value in
      if decide (len value > 62) then
        value ← slice_to value 62; Some (value, None)
      else Some (value, None)
  end.

Definition logical_path (attr : string) : string :=
  let attr := if negb (IsAbs attr) then Join ["/"; attr] else attr in
  Clean attr.

Definition Discover_entry (elements : gmap string string) (attr : string)
  : option (gmap string string) :=
  let attr := logical_path attr in
  let sysfsBasePath := SysfsDir_Path attr in
  ret ← readSingleParameter sysfsBasePath;
  match ret with
  | (_, Some err) => Some elements
  | (paramVal, None) =>
      name ← buildAttributeName attr;
      Some (<[name := paramVal]> elements)
  end.

Fixpoint Discover_loop (whitelist : list string)
    (elements : gmap string string) : option (gmap string string) :=
  match whitelist with
  | [] => Some elements
  | attr :: rest =>
      elements ← Discover_entry elements attr;
      Discover_loop rest elements
  end.

Definition Discover (s : sysfsSource)
  : option (sysfsSource * option error) :=
  elements ← Discover_loop (SysfsWhitelist (config s)) ∅;
  Some ({| config := config s; features := Some elements |}, None).
End Walker.

End Part000.

(** ** part_001 *)

Module Part001.

Definition buildAttributeName (attr : string) : option string :=
  name ← slice_from (replace_byte "/" "." attr) 1;
  if decide (len name > 55) then
    let start := len name - 55 in
    window ← slice_from name start;
    let offset := index_byte "." window + 1 in
    slice_from name (start + offset)
  else Some name.

Definition convertToLabel (str : string) : option string :=
  if decide (str = "") then Some str
  else
    let value := strip_leading label_edge str in
    let value := collapse_runs label_char false value in
    value ← (if decide (len value > 62) then slice_to value 62
             else Some value);
    Some (strip_trailing label_edge value).

Fixpoint GetLabels_range (entries : list (string * string))
    (labels : gmap string string) : gmap string string :=
  match entries with
  | [] => labels
  | (key, value) :: rest => GetLabels_range rest (<[key := value]> labels)
  end.

Definition GetLabels (s : sysfsSource)
    (ret : gmap string string * option error) : Prop :=
  ∃ entries, range_order (GetFeatures s) entries
             ∧ ret = (GetLabels_range entries ∅, None).

Section Walker.
Variable SysfsDir_Path : string → string.
Variable fs : filesystem.

Definition readSingleParameter (attrPath : string)
  : option (string * option error) :=
  match os_Stat fs attrPath with
  | Err err => Some ("", Some (FailedToRead attrPath err))
  | Ok isDir =>
      if isDir then Some ("", None)
      else
        match os_ReadFile fs attrPath with
        | Err err =>
            if IsPermission err then Some ("", None)
            else Some ("", Some (FailedToRead attrPath err))
        | Ok data => value ← convertToLabel data; Some (value, None)
        end
  end.

Definition logical_path (attr : string) : option string :=
  attr ← (if HasPrefix attr "/sys" then slice_from attr 4 else Some attr);
  let attr := if negb (IsAbs attr) then Join ["/"; attr] else attr in
  Some (Clean attr).

Definition Discover_entry (elements : gmap string string) (attr : string)
  : option (gmap string string) :=
  attr ← logical_path attr;
  let sysfsBasePath := SysfsDir_Path attr in
  ret ← readSingleParameter sysfsBasePath;
  match ret with
  | (_, Some err) => Some elements
  | (paramVal, None) =>
      name ← buildAttributeName attr;
      Some (<[name := paramVal]> elements)
  end.

Fixpoint Discover_loop (whitelist : list string)
    (elements : gmap string string) : option (gmap string string) :=
  match whitelist with
  | [] => Some elements
  | attr :: rest =>
      elements ← Discover_entry elements attr;
      Discover_loop rest elements
  end.

Definition Discover (s : sysfsSource)
  : option (sysfsSource * option error) :=
  elements ← Discover_loop (SysfsWhitelist (config s)) ∅;
  Some ({| config := config s; features := Some elements |}, None).
End Walker.

End Part001.

(** The dotted form of a path: every separator replaced, the leading one
    included. *)
Definition dotted (attr : string) : string := replace_byte "/" "." attr.

(** No two [.] next to each other. *)
Fixpoint no_adjacent_dots (s : string) : bool :=
  match s with
  | String "." (String "." _) => false
  | String _ r => no_adjacent_dots r
  | EmptyString => true
  end.

Definition begins_with_dot (s : string) : Prop := first_byte s = Some "."%char.

(** A cleaned absolute path: what [Discover] hands to [buildAttributeName]. *)
Definition cleaned_abs (attr : string) : Prop :=
  IsAbs attr = true ∧ Clean attr = attr.

(** The last 55 bytes of a name longer than that: [name[start:]]. *)
Definition window55 (name : string) : string :=
  str_drop (Z.to_nat (len name - 55)) name.

(** [cut_after_separator attr name]: [name] is the dotted form of a suffix of
    the path [attr] that starts right after a separator of [attr]. *)
Definition cut_after_separator (attr name : string) : bool :=
  let k := (String.length attr - String.length name)%nat in
  bool_decide (first_byte (str_drop (Nat.pred k) attr) = Some "/"%char)
  && bool_decide (1 ≤ k)%nat
  && bool_decide (dotted (str_drop k attr) = name).

(** An element of a path that [filepath.Clean] keeps in a rooted path. *)
Definition no_slash (e : string) : Prop :=
  all_bytes (λ c, negb (Ascii.eqb c "/")) e = true.

Definition normal_elem (e : string) : Prop :=
  e ≠ "" ∧ e ≠ "." ∧ e ≠ ".." ∧ no_slash e.

(** A source with the given whitelist. *)
Definition with_whitelist (whitelist : list string)
    (f : option (gmap string string)) : sysfsSource :=
  {| config := {| SysfsWhitelist := whitelist |}; features := f |}.

(** [Discover] returned without an error and left [elements] as the
    ResultSet. *)
Definition discovered (ret : option (sysfsSource * option error))
    (elements : gmap string string) : Prop :=
  ∃ s, ret = Some (s, None) ∧ features s = Some elements.

(** A small attribute tree for the examples: the tree is mounted at
    [/host-sys], as [hostpath.SysfsDir.Path] does in a container. *)
Definition demo_Path (attr : string) : string := Join ["/host-sys"; attr].

Definition demo_fs : filesystem := λ path,
  if decide (path = "/host-sys/class/power_supply/BAT0/capacity")
  then Regular ("87" +:+ String "010" "")
  else if decide (path = "/host-sys/class") then Directory
  else if decide (path = "/host-sys/kernel/secret") then Unreadable EACCES
  else if decide (path = "/host-sys/a b") then Regular "x"
  else Absent.

(** ** The configuration methods, the same in the three versions *)

(** A value of the interface [source.Config] as [SetConfig] sees it: a
    [*Config] of this package, or a value of another type, of which only
    the name of the type matters. *)
Inductive source_Config :=
  | SysfsConfig (v : Config)
  | ForeignConfig (type : string).

Definition Name : string := "sysfs".

Definition Priority : Z := 0.

Definition NewConfig : source_Config := SysfsConfig newDefaultConfig.

Definition GetConfig (s : sysfsSource) : source_Config :=
  SysfsConfig (config s).

(** [SetConfig]: the type switch; [None] is the panic of the default
    branch. *)
Definition SetConfig (s : sysfsSource) (conf : source_Config)
  : option sysfsSource :=
  match conf with
  | SysfsConfig v => Some {| config := v; features := features s |}
  | ForeignConfig _ => None
  end.

(** The singleton [src] as the package initialises it. *)
Definition src : sysfsSource :=
  {| config := newDefaultConfig; features := None |}.

(** ** Vocabulary of the further properties *)

(** The ASCII white space that [strings.TrimSpace] removes. *)
Definition ascii_space (c : ascii) : bool :=
  byte_in 9 13 c || byte_in 32 32 c.

(** The shape of a value that [convertToLabel] returns. *)
Definition label_value (value : string) : Prop :=
  len value ≤ 62
  ∧ all_bytes label_char value = true
  ∧ (∀ c, first_byte value = Some c → label_edge c = true)
  ∧ (∀ c, last_byte value = Some c → label_edge c = true).

(** What a turn of the loop of [Discover] does with an entry: the entry is
    recorded under [name] with [value] when its path is read without an
    error. *)
Definition sysfs_records (SysfsDir_Path : string → string) (fs : filesystem)
    (attr name value : string) : Prop :=
  Sysfs.buildAttributeName (Sysfs.logical_path attr) = Some name
  ∧ Sysfs.readSingleParameter fs (SysfsDir_Path (Sysfs.logical_path attr))
    = (value, None).

Definition part000_records (SysfsDir_Path : string → string)
    (fs : filesystem) (attr name value : string) : Prop :=
  Part000.buildAttributeName (Part000.logical_path attr) = Some name
  ∧ Part000.readSingleParameter fs
      (SysfsDir_Path (Part000.logical_path attr)) = Some (value, None).

Definition part001_records (SysfsDir_Path : string → string)
    (fs : filesystem) (attr name value : string) : Prop :=
  ∃ lp, Part001.logical_path attr = Some lp
        ∧ Part001.buildAttributeName lp = Some name
        ∧ Part001.readSingleParameter fs (SysfsDir_Path lp)
          = Some (value, None).

(** The loop of [Discover] over an arbitrary turn [step]: the three versions
    are instances of it. *)
Fixpoint walk (step : gmap string string → string → option (gmap string string))
    (whitelist : list string) (elements : gmap string string)
  : option (gmap string string) :=
  match whitelist with
  | [] => Some elements
  | attr :: rest => elements ← step elements attr; walk step rest elements
  end.

(** A tree in which names collide: the directory [a/b] and the file [a.b],
    the unreadable file [k/secret] and the file [k.secret]. *)
Definition collide_fs : filesystem := λ path,
  if decide (path = "/host-sys/a/b") then Directory
  else if decide (path = "/host-sys/a.b") then Regular "7"
  else if decide (path = "/host-sys/k/secret") then Unreadable EACCES
  else if decide (path = "/host-sys/k.secret") then Regular "7"
  else Absent.

(** * Properties *)

(** ** Byte strings *)

Section StringFacts.
Implicit Types (s t : string) (n m : nat) (c : ascii).

Lemma len_nonneg s : 0 ≤ len s.
Proof. unfold len. lia. Qed.

Lemma len_String c s : len (String c s) = len s + 1.
Proof. unfold len. simpl. lia. Qed.

Lemma app_String c s t : String c s +:+ t = String c (s +:+ t).
Proof. reflexivity. Qed.

Lemma app_empty s : "" +:+ s = s.
Proof. reflexivity. Qed.

Lemma app_assoc_str s t u : (s +:+ t) +:+ u = s +:+ t +:+ u.
Proof.
  induction s; [done|]. rewrite !app_String. by rewrite IHs.
Qed.

Lemma length_app s t :
  String.length (s +:+ t) = (String.length s + String.length t)%nat.
Proof.
  induction s; [done|]. rewrite app_String. simpl. congruence.
Qed.

Lemma length_str_drop n s :
  String.length (str_drop n s) = (String.length s - n)%nat.
Proof. revert s. induction n; intros [|c s]; simpl; auto with lia. Qed.

Lemma length_str_take n s :
  String.length (str_take n s) = (n `min` String.length s)%nat.
Proof. revert s. induction n; intros [|c s]; simpl; auto with lia. Qed.

Lemma str_take_all n s : (String.length s ≤ n)%nat → str_take n s = s.
Proof.
  revert s. induction n; intros [|c s]; simpl; intros; auto with lia.
  f_equal. apply IHn. lia.
Qed.

Lemma str_take_drop n s : str_take n s +:+ str_drop n s = s.
Proof.
  revert s. induction n; intros [|c s]; simpl; auto.
  rewrite app_String. by rewrite IHn.
Qed.

Lemma str_drop_drop n m s : str_drop m (str_drop n s) = str_drop (n + m) s.
Proof.
  revert s. induction n; intros [|c s]; simpl; auto.
  by destruct m.
Qed.

Lemma length_replace_byte c c' s :
  String.length (replace_byte c c' s) = String.length s.
Proof. induction s; simpl; congruence. Qed.

Lemma slice_from_Some s i :
  0 ≤ i ≤ len s → slice_from s i = Some (str_drop (Z.to_nat i) s).
Proof. intros. unfold slice_from. by rewrite decide_True. Qed.

Lemma slice_to_Some s j :
  0 ≤ j ≤ len s → slice_to s j = Some (str_take (Z.to_nat j) s).
Proof. intros. unfold slice_to. by rewrite decide_True. Qed.

Lemma len_str_drop s i : 0 ≤ i ≤ len s → len (str_drop (Z.to_nat i) s) = len s - i.
Proof. unfold len. rewrite length_str_drop. lia. Qed.

Lemma index_byte_range c s : -1 ≤ index_byte c s < len s.
Proof.
  induction s as [|a s IH]; simpl; [unfold len; simpl; lia|].
  rewrite len_String. destruct (Ascii.eqb a c); [lia|].
  destruct (Z.ltb_spec (index_byte c s) 0); lia.
Qed.

(** Where [strings.Index] finds the byte, the string splits there, and the
    part before holds no such byte. *)
Lemma index_byte_found c s :
  0 ≤ index_byte c s →
  s = str_take (Z.to_nat (index_byte c s)) s
      +:+ String c (str_drop (Z.to_nat (index_byte c s + 1)) s)
  ∧ index_byte c (str_take (Z.to_nat (index_byte c s)) s) = -1.
Proof.
  induction s as [|a s IH]; simpl; [lia|].
  destruct (Ascii.eqb_spec a c) as [->|Hne]; [done|].
  destruct (Z.ltb_spec (index_byte c s) 0) as [|Hge]; [lia|]. intros _.
  destruct (IH Hge) as [Hs Hno].
  replace (Z.to_nat (index_byte c s + 1)) with (S (Z.to_nat (index_byte c s)))
    by lia.
  replace (Z.to_nat (index_byte c s + 1 + 1))
    with (S (Z.to_nat (index_byte c s + 1))) by lia.
  simpl. split; [rewrite app_String; by rewrite <- Hs|].
  destruct (Ascii.eqb_spec a c); [done|]. by rewrite Hno.
Qed.

Lemma index_byte_absent_first c s :
  index_byte c s = -1 → first_byte s ≠ Some c.
Proof.
  destruct s as [|a s]; simpl; [done|].
  destruct (Ascii.eqb_spec a c); [lia|]. congruence.
Qed.

Lemma no_adjacent_dots_tail c s :
  no_adjacent_dots (String c s) = true → no_adjacent_dots s = true.
Proof.
  simpl. destruct s as [|a s]; [done|].
  destruct (decide (c = "."%char)) as [->|];
    destruct (decide (a = "."%char)) as [->|]; try done.
  - destruct a as [[] [] [] [] [] [] [] []]; done.
  - destruct c as [[] [] [] [] [] [] [] []]; done.
  - destruct c as [[] [] [] [] [] [] [] []]; done.
Qed.

Lemma no_adjacent_dots_after s t :
  no_adjacent_dots (s +:+ String "." t) = true → ¬ begins_with_dot t.
Proof.
  induction s as [|a s IH].
  - destruct t as [|b t]; [done|]. intros H [= ->]. done.
  - intros H. apply IH. by apply no_adjacent_dots_tail in H.
Qed.
End StringFacts.

(** ** The name normaliser *)

Section NameFacts.
Implicit Types attr name : string.

Lemma IsAbs_inv attr : IsAbs attr = true → ∃ rest, attr = String "/" rest.
Proof.
  destruct attr as [|c rest]; [done|]. unfold IsAbs. cbn [HasPrefix].
  destruct (Ascii.eqb_spec "/" c) as [<-|]; [eauto|done].
Qed.

Lemma dotted_abs rest :
  slice_from (dotted (String "/" rest)) 1 = Some (dotted rest).
Proof.
  rewrite slice_from_Some; [done|].
  unfold dotted; simpl. rewrite len_String. pose proof (len_nonneg
    (replace_byte "/" "." rest)). lia.
Qed.

Lemma len_window55 name : len name > 55 → len (window55 name) = 55.
Proof.
  intros. unfold window55. rewrite len_str_drop; pose proof (len_nonneg name);
    lia.
Qed.

Lemma simple_name attr name :
  slice_from (dotted attr) 1 = Some name →
  Sysfs.buildAttributeName attr
  = Some (if decide (len name > 64)
          then str_drop (Z.to_nat (len name - 64)) name else name).
Proof.
  intros Hn. unfold Sysfs.buildAttributeName. fold (dotted attr).
  rewrite Hn. simpl. case_decide; [|done].
  apply slice_from_Some. lia.
Qed.

Lemma refined_short attr name :
  slice_from (dotted attr) 1 = Some name → len name ≤ 55 →
  Part001.buildAttributeName attr = Some name.
Proof.
  intros Hn ?. unfold Part001.buildAttributeName. fold (dotted attr).
  rewrite Hn. simpl. rewrite decide_False; [done|lia].
Qed.

(** No [.] in the last 55 bytes: [strings.Index] gives -1, the offset is 0
    and the name is cut like in the simple policy. *)
Lemma refined_no_dot attr name :
  slice_from (dotted attr) 1 = Some name → len name > 55 →
  index_byte "." (window55 name) = -1 →
  Part001.buildAttributeName attr = Some (window55 name).
Proof.
  intros Hn ? Hi. unfold Part001.buildAttributeName. fold (dotted attr).
  rewrite Hn. simpl. rewrite decide_True by done.
  rewrite (slice_from_Some name (len name - 55)) by lia. simpl.
  fold (window55 name). rewrite Hi. simpl.
  rewrite Z.add_0_r. apply slice_from_Some. lia.
Qed.

Lemma refined_cut attr name :
  slice_from (dotted attr) 1 = Some name → len name > 55 →
  0 ≤ index_byte "." (window55 name) →
  ∃ seg r, window55 name = seg +:+ String "." r
           ∧ index_byte "." seg = -1
           ∧ Part001.buildAttributeName attr = Some r.
Proof.
  intros Hn ? Hi.
  destruct (index_byte_found _ _ Hi) as [Hw Hseg].
  pose proof (index_byte_range "." (window55 name)) as Hr.
  rewrite len_window55 in Hr by done.
  eexists _, _. split; [exact Hw|]. split; [exact Hseg|].
  unfold Part001.buildAttributeName. fold (dotted attr).
  rewrite Hn. simpl. rewrite decide_True by done.
  rewrite (slice_from_Some name (len name - 55)) by lia. simpl.
  fold (window55 name). rewrite slice_from_Some by lia. f_equal.
  unfold window55 at 3. rewrite str_drop_drop. f_equal. lia.
Qed.
End NameFacts.

(** C1 (as amended).  Refined policy: when the dotted name of a cleaned
    absolute path is longer than 55 bytes and its last 55 bytes hold a [.],
    [buildAttributeName] returns the part of the name right after the first
    such [.]: the name is [skipped ++ seg ++ "." ++ r] with [skipped] the
    bytes before the window, [seg] free of [.], and [r] the result, shorter
    than 55. *)
Theorem refined_name_begins_after_dot attr name :
  cleaned_abs attr →
  slice_from (dotted attr) 1 = Some name →
  len name > 55 →
  0 ≤ index_byte "." (window55 name) →
  ∃ skipped seg r,
    Part001.buildAttributeName attr = Some r
    ∧ name = skipped +:+ seg +:+ String "." r
    ∧ len skipped = len name - 55
    ∧ index_byte "." seg = -1
    ∧ len r < 55.
Proof.
  intros _ Hn Hlen Hi.
  destruct (refined_cut attr name Hn Hlen Hi) as (seg & r & Hw & Hseg & Hb).
  exists (str_take (Z.to_nat (len name - 55)) name), seg, r.
  split; [done|]. split.
  { rewrite <- Hw. unfold window55. by rewrite str_take_drop. }
  split.
  { unfold len. rewrite length_str_take. unfold len in Hlen. lia. }
  split; [done|].
  pose proof (len_window55 name Hlen) as Hw55. rewrite Hw in Hw55.
  unfold len in *. rewrite length_app in Hw55. simpl in Hw55. lia.
Qed.

Lemma refined_name_begins_after_dot_witness :
  ∃ skipped seg r,
    Part001.buildAttributeName
      "/devices/pci0000:00/0000:00:1f.0/ata1/host0/target0:0:0/0:0:0:0/model"
    = Some r
    ∧ "devices.pci0000:00.0000:00:1f.0.ata1.host0.target0:0:0.0:0:0:0.model"
      = skipped +:+ seg +:+ String "." r
    ∧ len skipped
      = len "devices.pci0000:00.0000:00:1f.0.ata1.host0.target0:0:0.0:0:0:0.model"
        - 55
    ∧ index_byte "." seg = -1
    ∧ len r < 55.
Proof.
  apply (refined_name_begins_after_dot
    "/devices/pci0000:00/0000:00:1f.0/ata1/host0/target0:0:0/0:0:0:0/model"
    "devices.pci0000:00.0000:00:1f.0.ata1.host0.target0:0:0.0:0:0:0.model").
  - split; vm_compute; reflexivity.
  - vm_compute; reflexivity.
  - vm_compute; reflexivity.
  - vm_compute; discriminate.
Defined.

(** C1, as stated, fails.  A path whose last segment alone is longer than the
    cap has no [.] in the window: the result is the last 55 bytes, as long
    as the cap and cut inside the segment.  And a [.] of the window that is
    a dot of a file name is taken for a boundary: the result starts inside
    the segment [0000:00:1f.2]. *)
Lemma refined_name_mid_segment :
  let long := "/aaaaaaaaaaaaaaaaaaaaaaaaaaaaaaaaaaaaaaaaaaaaaaaaaaaaaaaaaaaa" in
  let r := "aaaaaaaaaaaaaaaaaaaaaaaaaaaaaaaaaaaaaaaaaaaaaaaaaaaaaaa" in
  let pci :=
    "/devices/pci0000:00/0000:00:1f.2/ata1/host0/target0:0:0/0:0:0:0/block/sda/size"
  in
  (cleaned_abs long
   ∧ slice_from (dotted long) 1 = Some ("aaaaa" +:+ r)
   ∧ index_byte "." (window55 ("aaaaa" +:+ r)) = -1
   ∧ Part001.buildAttributeName long = Some r
   ∧ len r = 55
   ∧ cut_after_separator long r = false)
  ∧ (cleaned_abs pci
     ∧ Part001.buildAttributeName pci
       = Some "2.ata1.host0.target0:0:0.0:0:0:0.block.sda.size"
     ∧ cut_after_separator pci
         "2.ata1.host0.target0:0:0.0:0:0:0.block.sda.size" = false).
Proof. repeat split; vm_compute; reflexivity. Qed.

(** C3 (as amended).  For a cleaned absolute path the name is at most 64
    bytes long in sysfs.go and part_000 and at most 55 in part_001.  When the
    dotted form of the path has no two [.] in a row (no dot of a segment is
    next to a separator or to another dot), the name of part_001 does not
    begin with [.], and neither does the name of sysfs.go and part_000 as
    long as it is not truncated. *)
Theorem buildAttributeName_cap attr :
  cleaned_abs attr →
  (∃ name, Sysfs.buildAttributeName attr = Some name
           ∧ Part000.buildAttributeName attr = Some name
           ∧ len name ≤ 64
           ∧ (no_adjacent_dots (dotted attr) = true →
              len (dotted attr) ≤ 65 → ¬ begins_with_dot name))
  ∧ (∃ name, Part001.buildAttributeName attr = Some name
             ∧ len name ≤ 55
             ∧ (no_adjacent_dots (dotted attr) = true →
                ¬ begins_with_dot name)).
Proof.
  intros [Habs _]. apply IsAbs_inv in Habs as [rest ->].
  pose proof (dotted_abs rest) as Hn.
  pose proof (len_nonneg (dotted rest)) as Hpos.
  assert (Hfirst : no_adjacent_dots (dotted (String "/" rest)) = true →
                   ¬ begins_with_dot (dotted rest)).
  { intros Hd. apply (no_adjacent_dots_after ""). exact Hd. }
  split.
  - eexists. split; [by apply simple_name|]. split; [by apply simple_name|].
    split.
    + case_decide; [|lia]. rewrite len_str_drop; lia.
    + intros Hd Hl. change (dotted (String "/" rest))
        with (String "." (dotted rest)) in Hl. rewrite len_String in Hl.
      rewrite decide_False by lia. auto.
  - destruct (decide (len (dotted rest) ≤ 55)) as [Hs|Hs].
    { eexists. split; [by apply refined_short|]. split; [done|auto]. }
    assert (Hl : len (dotted rest) > 55) by lia.
    pose proof (len_window55 _ Hl) as Hw.
    destruct (decide (0 ≤ index_byte "." (window55 (dotted rest))))
      as [Hi|Hi].
    + destruct (refined_cut _ _ Hn Hl Hi) as (seg & r & Hwr & _ & Hb).
      exists r. split; [done|]. split.
      * rewrite Hwr in Hw. unfold len in *. rewrite length_app in Hw.
        simpl in Hw. lia.
      * intros Hd. apply (no_adjacent_dots_after
          ("." +:+ str_take (Z.to_nat (len (dotted rest) - 55)) (dotted rest)
           +:+ seg)).
        replace (("." +:+ str_take (Z.to_nat (len (dotted rest) - 55))
                   (dotted rest) +:+ seg) +:+ String "." r)
          with (dotted (String "/" rest)); [done|].
        change (dotted (String "/" rest)) with ("." +:+ dotted rest).
        rewrite <- (str_take_drop (Z.to_nat (len (dotted rest) - 55))
                      (dotted rest)) at 1.
        fold (window55 (dotted rest)). rewrite Hwr.
        by rewrite !app_assoc_str.
    + pose proof (index_byte_range "." (window55 (dotted rest))).
      assert (Hno : index_byte "." (window55 (dotted rest)) = -1) by lia.
      exists (window55 (dotted rest)). split; [by apply refined_no_dot|].
      split; [lia|]. intros _. by apply index_byte_absent_first.
Qed.

Lemma buildAttributeName_cap_witness :
  cleaned_abs "/class/power_supply/BAT0/capacity"
  ∧ no_adjacent_dots (dotted "/class/power_supply/BAT0/capacity") = true
  ∧ len (dotted "/class/power_supply/BAT0/capacity") ≤ 65
  ∧ (∃ name,
     Sysfs.buildAttributeName "/class/power_supply/BAT0/capacity" = Some name
     ∧ Part000.buildAttributeName "/class/power_supply/BAT0/capacity"
       = Some name
     ∧ len name ≤ 64
     ∧ (no_adjacent_dots (dotted "/class/power_supply/BAT0/capacity") = true →
        len (dotted "/class/power_supply/BAT0/capacity") ≤ 65 →
        ¬ begins_with_dot name))
  ∧ (∃ name,
       Part001.buildAttributeName "/class/power_supply/BAT0/capacity"
       = Some name
       ∧ len name ≤ 55
       ∧ (no_adjacent_dots (dotted "/class/power_supply/BAT0/capacity") = true →
          ¬ begins_with_dot name)).
Proof.
  split; [|split; [|split]].
  - split; vm_compute; reflexivity.
  - vm_compute; reflexivity.
  - vm_compute; discriminate.
  - apply (buildAttributeName_cap "/class/power_supply/BAT0/capacity").
    split; vm_compute; reflexivity.
Defined.

(** C3, as stated, fails: the name begins with [.] when the first segment
    does (all versions), when the cut of the simple policy falls on a
    separator, and when the first [.] of the window of the refined policy is
    followed by another. *)
Lemma buildAttributeName_leading_dot :
  let cut :=
    "/a/bbbbbbbbbbbbbbbbbbbbbbbbbbbbbbbbbbbbbbbbbbbbbbbbbbbbbbbbbbbbbbb" in
  let two :=
    "/aaaaaaaaaaaaaaaaaaaaaaaaaaaaaaaaaaaaaaaaaaaaaaaaaaaaaaaaaaaa..b" in
  cleaned_abs "/.a"
  ∧ Sysfs.buildAttributeName "/.a" = Some ".a"
  ∧ Part000.buildAttributeName "/.a" = Some ".a"
  ∧ Part001.buildAttributeName "/.a" = Some ".a"
  ∧ cleaned_abs cut
  ∧ no_adjacent_dots (dotted cut) = true
  ∧ (∃ name, Sysfs.buildAttributeName cut = Some name
             ∧ begins_with_dot name)
  ∧ cleaned_abs two
  ∧ Part001.buildAttributeName two = Some ".b".
Proof.
  repeat split; try (vm_compute; reflexivity).
  eexists. split; vm_compute; reflexivity.
Qed.

(** ** The value sanitiser *)

Section ValueFacts.
Implicit Types (s : string) (c : ascii) (ok : ascii → bool).

Lemma label_edge_char c : label_edge c = true → label_char c = true.
Proof. unfold label_char. by intros ->. Qed.

Lemma label_char_underscore : label_char "_" = true.
Proof. reflexivity. Qed.

(** The only punctuation in [[-A-Za-z0-9]] is the hyphen. *)
Lemma label_edge_punct c :
  label_edge c = true → is_punct c = true → c = "-"%char.
Proof. destruct c as [[] [] [] [] [] [] [] []]; vm_compute; congruence. Qed.

Lemma strip_leading_first ok s c :
  first_byte (strip_leading ok s) = Some c → ok c = true.
Proof.
  induction s as [|a s IH]; simpl; [done|].
  destruct (ok a) eqn:Ha; [|done]. by intros [= <-].
Qed.

Lemma strip_leading_id ok s c :
  first_byte s = Some c → ok c = true → strip_leading ok s = s.
Proof. destruct s; simpl; [done|]. by intros [= ->] ->. Qed.

Lemma collapse_runs_all ok b s :
  ok "_"%char = true → all_bytes ok (collapse_runs ok b s) = true.
Proof.
  intros Hu. revert b. induction s as [|a s IH]; intros b; simpl; [done|].
  destruct (ok a) eqn:Ha; simpl; [by rewrite Ha, IH|].
  destruct b; simpl; [done|]. by rewrite Hu, IH.
Qed.

Lemma collapse_runs_id ok b s :
  all_bytes ok s = true → collapse_runs ok b s = s.
Proof.
  revert b. induction s as [|a s IH]; intros b; simpl; [done|].
  intros [Ha Hs]%andb_prop. rewrite Ha. by rewrite IH.
Qed.

Lemma str_take_all_bytes ok n s :
  all_bytes ok s = true → all_bytes ok (str_take n s) = true.
Proof.
  revert s. induction n; intros [|a s]; simpl; try done.
  intros [-> Hs]%andb_prop. by apply IHn.
Qed.

Lemma str_take_first n s c :
  first_byte (str_take n s) = Some c → first_byte s = Some c.
Proof. destruct n, s; simpl; done. Qed.

Lemma strip_trailing_all_bytes ok ok' s :
  all_bytes ok' s = true → all_bytes ok' (strip_trailing ok s) = true.
Proof.
  induction s as [|a s IH]; simpl; [done|]. intros [Ha Hs]%andb_prop.
  specialize (IH Hs). destruct (strip_trailing ok s); simpl in *.
  - destruct (ok a); simpl; by rewrite ?Ha.
  - by rewrite Ha.
Qed.

Lemma strip_trailing_length ok s :
  (String.length (strip_trailing ok s) ≤ String.length s)%nat.
Proof.
  induction s as [|a s IH]; simpl; [done|].
  destruct (strip_trailing ok s); simpl in *; [destruct (ok a); simpl|]; lia.
Qed.

Lemma strip_trailing_first ok s c :
  first_byte (strip_trailing ok s) = Some c → first_byte s = Some c.
Proof.
  destruct s as [|a s]; simpl; [done|].
  destruct (strip_trailing ok s); [destruct (ok a)|]; simpl; done.
Qed.

Lemma strip_trailing_last ok s c :
  last_byte (strip_trailing ok s) = Some c → ok c = true.
Proof.
  induction s as [|a s IH]; simpl; [done|].
  destruct (strip_trailing ok s) as [|b t] eqn:Ht.
  - destruct (ok a) eqn:Ha; simpl; [|done]. by intros [= <-].
  - intros H. apply IH. exact H.
Qed.

Lemma strip_trailing_id ok s c :
  last_byte s = Some c → ok c = true → strip_trailing ok s = s.
Proof.
  induction s as [|a s IH]; [done|]. intros Hl Hc. simpl.
  destruct s as [|b t].
  - simpl in *. injection Hl as ->. by rewrite Hc.
  - rewrite IH by done. done.
Qed.

Lemma first_byte_is_Some s : s ≠ "" → ∃ c, first_byte s = Some c.
Proof. destruct s; [done|]. simpl. eauto. Qed.

Lemma last_byte_is_Some s : s ≠ "" → ∃ c, last_byte s = Some c.
Proof.
  induction s as [|a s IH]; [done|]. intros _. destruct s as [|b t].
  - simpl. eauto.
  - destruct IH as [c Hc]; [done|]. exists c. exact Hc.
Qed.

(** What [convertToLabel] returns, on every input. *)
Lemma convertToLabel_spec str :
  ∃ value, Part001.convertToLabel str = Some value
           ∧ len value ≤ 62
           ∧ all_bytes label_char value = true
           ∧ (∀ c, first_byte value = Some c → label_edge c = true)
           ∧ (∀ c, last_byte value = Some c → label_edge c = true).
Proof.
  unfold Part001.convertToLabel. case_decide as Hstr.
  { subst. exists "". repeat split; try done. }
  set (v1 := strip_leading label_edge str).
  set (v2 := collapse_runs label_char false v1).
  assert (Hall : all_bytes label_char v2 = true)
    by (apply collapse_runs_all; reflexivity).
  assert (Hfirst : ∀ c, first_byte v2 = Some c → label_edge c = true).
  { intros c. subst v2. destruct v1 as [|a r] eqn:Hv1; [done|].
    assert (Ha : label_edge a = true)
      by (apply (strip_leading_first label_edge str); fold v1;
          by rewrite Hv1).
    simpl. rewrite (label_edge_char a Ha). simpl. by intros [= <-]. }
  assert (∃ v3, (if decide (len v2 > 62) then slice_to v2 62 else Some v2)
                = Some v3
                ∧ len v3 ≤ 62 ∧ all_bytes label_char v3 = true
                ∧ ∀ c, first_byte v3 = Some c → first_byte v2 = Some c)
    as (v3 & -> & Hlen & Hall3 & Hfirst3).
  { case_decide.
    - exists (str_take 62 v2). split; [by apply slice_to_Some; lia|].
      split; [unfold len; rewrite length_str_take; lia|].
      split; [by apply str_take_all_bytes|]. apply str_take_first.
    - exists v2. repeat split; [lia|done|done]. }
  simpl. eexists. split; [done|]. split.
  { pose proof (strip_trailing_length label_edge v3). unfold len in *. lia. }
  split; [by apply strip_trailing_all_bytes|]. split.
  - intros c Hc%strip_trailing_first. auto.
  - apply strip_trailing_last.
Qed.

(** A value with the shape of a result is returned as it is. *)
Lemma convertToLabel_fix value :
  len value ≤ 62 → all_bytes label_char value = true →
  (∀ c, first_byte value = Some c → label_edge c = true) →
  (∀ c, last_byte value = Some c → label_edge c = true) →
  Part001.convertToLabel value = Some value.
Proof.
  intros Hlen Hall Hf Hl. unfold Part001.convertToLabel.
  case_decide as Hv; [done|].
  destruct (first_byte_is_Some value Hv) as [a Ha].
  destruct (last_byte_is_Some value Hv) as [z Hz].
  rewrite (strip_leading_id label_edge value a) by auto.
  rewrite collapse_runs_id by done.
  rewrite decide_False by lia. simpl.
  by rewrite (strip_trailing_id label_edge value z) by auto.
Qed.
End ValueFacts.

(** C2 (as amended).  On every input [convertToLabel] returns a string of at
    most 62 bytes, all of them in [[-A-Za-z0-9_.]], whose first and last
    bytes are in [[-A-Za-z0-9]]: never [_] or [.], and no punctuation but the
    hyphen. *)
Theorem convertToLabel_shape str :
  ∃ value,
    Part001.convertToLabel str = Some value
    ∧ len value ≤ 62
    ∧ all_bytes label_char value = true
    ∧ ∀ c, first_byte value = Some c ∨ last_byte value = Some c →
           label_edge c = true
           ∧ c ≠ "_"%char ∧ c ≠ "."%char
           ∧ (is_punct c = true → c = "-"%char).
Proof.
  destruct (convertToLabel_spec str) as (value & Hv & Hlen & Hall & Hf & Hl).
  exists value. split; [done|]. split; [done|]. split; [done|].
  intros c Hc. assert (Hedge : label_edge c = true) by (destruct Hc; auto).
  split; [done|]. split; [by intros ->|]. split; [by intros ->|].
  by apply label_edge_punct.
Qed.

(** C2, as stated, fails: a hyphen at either end is kept. *)
Lemma convertToLabel_keeps_hyphen :
  Part001.convertToLabel ("-1" +:+ String "010" "") = Some "-1"
  ∧ first_byte "-1" = Some "-"%char
  ∧ Part001.convertToLabel ("1-" +:+ String "010" "") = Some "1-"
  ∧ last_byte "1-" = Some "-"%char
  ∧ is_punct "-" = true.
Proof. repeat split; vm_compute; reflexivity. Qed.

(** C4.  [convertToLabel] is idempotent: it returns a value on every input,
    and returns that value unchanged when given it again. *)
Theorem convertToLabel_idempotent str :
  ∃ value, Part001.convertToLabel str = Some value
           ∧ Part001.convertToLabel value = Some value.
Proof.
  destruct (convertToLabel_spec str) as (value & Hv & Hlen & Hall & Hf & Hl).
  exists value. split; [done|]. by apply convertToLabel_fix.
Qed.

(** ** The label export *)

Section ExportFacts.
Implicit Types (s : string) (m labels : gmap string string)
  (entries : list (string * string)).

Lemma replace_runes_all ok k s :
  ok "_"%char = true → all_bytes ok (replace_runes ok k s) = true.
Proof.
  intros Hu. revert k. induction s as [|a s IH]; intros k; simpl; [done|].
  destruct k; [|done].
  destruct (ok a) eqn:Ha; simpl; by rewrite ?Ha, ?Hu, IH.
Qed.

(** A string of the class is not changed. *)
Lemma replace_runes_id ok s :
  all_bytes ok s = true → replace_runes ok 0 s = s.
Proof.
  induction s as [|a s IH]; simpl; [done|].
  intros [-> Hs]%andb_prop. by rewrite IH.
Qed.

(** Every label comes from the map it had at the start or from an entry
    visited, both parts passed through the expression. *)
Lemma Sysfs_GetLabels_range_lookup entries labels key value :
  Sysfs.GetLabels_range entries labels !! key = Some value →
  labels !! key = Some value
  ∨ ∃ k0 v0, (k0, v0) ∈ entries
             ∧ key = replace_runes label_char 0 k0
             ∧ value = replace_runes label_char 0 v0.
Proof.
  revert labels. induction entries as [|[k0 v0] rest IH]; intros labels;
    simpl; [auto|].
  intros [Hin|(k1 & v1 & Hin & ? & ?)]%IH.
  - destruct (decide (replace_runes label_char 0 k0 = key)) as [<-|Hne].
    + rewrite lookup_insert_eq in Hin. injection Hin as <-.
      right. exists k0, v0. split; [left|done].
    + rewrite lookup_insert_ne in Hin by done. by left.
  - right. exists k1, v1. split; [by right|done].
Qed.

(** The loop of part_000 and part_001 adds the entries as they are. *)
Lemma copy_range_list_to_map entries labels :
  NoDup entries.*1 →
  Part001.GetLabels_range entries labels = list_to_map entries ∪ labels.
Proof.
  revert labels. induction entries as [|[k v] rest IH]; intros labels;
    simpl.
  - intros _. by rewrite (left_id_L ∅ (∪)).
  - intros [Hk Hnd]%NoDup_cons. rewrite IH by done.
    rewrite <- insert_union_l. apply symmetry, insert_union_r.
    by apply not_elem_of_list_to_map_1.
Qed.

Lemma Part000_range_eq entries labels :
  Part000.GetLabels_range entries labels
  = Part001.GetLabels_range entries labels.
Proof.
  revert labels. induction entries as [|[k v] rest IH]; intros labels;
    simpl; [done|]. apply IH.
Qed.

Lemma copy_range_order m entries :
  range_order m entries → Part001.GetLabels_range entries ∅ = m.
Proof.
  unfold range_order. intros Hp.
  assert (Hnd : NoDup entries.*1).
  { rewrite Hp. apply NoDup_fst_map_to_list. }
  rewrite copy_range_list_to_map by done.
  rewrite (right_id_L ∅ (∪)).
  rewrite (list_to_map_proper entries (map_to_list m)) by done.
  apply list_to_map_to_list.
Qed.

Lemma Part001_GetLabels_copy src ret :
  Part001.GetLabels src ret → ret = (GetFeatures src, None).
Proof.
  intros (entries & Ho & ->). by rewrite (copy_range_order _ _ Ho).
Qed.

Lemma Part000_GetLabels_copy src ret :
  Part000.GetLabels src ret → ret = (GetFeatures src, None).
Proof.
  intros (entries & Ho & ->).
  by rewrite Part000_range_eq, (copy_range_order _ _ Ho).
Qed.

Lemma Sysfs_GetLabels_chars src labels err :
  Sysfs.GetLabels src (labels, err) →
  err = None
  ∧ ∀ key value, labels !! key = Some value →
      all_bytes label_char key = true
      ∧ all_bytes label_char value = true
      ∧ ∃ k0 v0, GetFeatures src !! k0 = Some v0
                 ∧ key = replace_runes label_char 0 k0
                 ∧ value = replace_runes label_char 0 v0.
Proof.
  intros (entries & Ho & [= -> ->]). split; [done|]. intros key value Hkv.
  apply Sysfs_GetLabels_range_lookup in Hkv
    as [Hkv|(k0 & v0 & Hin & -> & ->)]; [by rewrite lookup_empty in Hkv|].
  split; [by apply replace_runes_all|].
  split; [by apply replace_runes_all|].
  exists k0, v0. split; [|done].
  apply elem_of_map_to_list. unfold range_order in Ho. by rewrite <- Ho.
Qed.

(** [GetLabels] returns, whatever the state. *)
Lemma GetLabels_returns src :
  (∃ ret, Sysfs.GetLabels src ret)
  ∧ (∃ ret, Part000.GetLabels src ret)
  ∧ (∃ ret, Part001.GetLabels src ret).
Proof.
  repeat split; eexists; exists (map_to_list (GetFeatures src));
    (split; [by unfold range_order|reflexivity]).
Qed.
End ExportFacts.

(** C5 (as amended).  In sysfs.go every key and every value of the map that
    [GetLabels] hands out is an entry of the features with each rune outside
    [[-A-Za-z0-9_.]] replaced by [_], so it holds characters of that class
    only.  In part_000 and part_001 [GetLabels] hands out the entries
    unchanged: no replacement is made there. *)
Theorem GetLabels_export src ret :
  (Sysfs.GetLabels src ret →
   ret.2 = None
   ∧ ∀ key value, ret.1 !! key = Some value →
       all_bytes label_char key = true
       ∧ all_bytes label_char value = true
       ∧ ∃ k0 v0, GetFeatures src !! k0 = Some v0
                  ∧ key = replace_runes label_char 0 k0
                  ∧ value = replace_runes label_char 0 v0)
  ∧ (Part000.GetLabels src ret → ret = (GetFeatures src, None))
  ∧ (Part001.GetLabels src ret → ret = (GetFeatures src, None)).
Proof.
  split; [|split].
  - destruct ret as [labels err]. apply Sysfs_GetLabels_chars.
  - apply Part000_GetLabels_copy.
  - apply Part001_GetLabels_copy.
Qed.

(** ** Paths *)

Section PathFacts.
Implicit Types (s e : string) (segs out : list string).

Lemma HasPrefix_inv s pre :
  HasPrefix s pre = true → s = pre +:+ str_drop (String.length pre) s.
Proof.
  revert s. induction pre as [|a pre IH]; intros [|b s]; simpl; try done.
  intros [Hab Hp]%andb_prop. apply Ascii.eqb_eq in Hab as ->.
  rewrite app_String. f_equal. by apply IH.
Qed.

Lemma IsAbs_false_no_sys s : IsAbs s = false → HasPrefix s "/sys" = false.
Proof.
  destruct s as [|c s]; [done|]. unfold IsAbs. cbn [HasPrefix].
  by destruct (Ascii.eqb "/" c).
Qed.

Lemma split_path_slash s :
  split_path (String "/" s) = "" :: split_path s.
Proof. reflexivity. Qed.

Lemma split_path_cons c s :
  Ascii.eqb c "/" = false →
  ∃ seg segs, split_path s = seg :: segs
              ∧ split_path (String c s) = String c seg :: segs.
Proof.
  intros Hc. cbn [split_path]. rewrite Hc.
  destruct s as [|a s]; [by eexists _, _|]. cbn [split_path].
  destruct (Ascii.eqb a "/"); [by eexists _, _|].
  destruct (split_path s); by eexists _, _.
Qed.

Lemma split_path_no_slash s : Forall no_slash (split_path s).
Proof.
  induction s as [|c s IH]; [by repeat constructor|].
  destruct (Ascii.eqb c "/") eqn:Hc.
  - cbn [split_path]. rewrite Hc. by constructor.
  - destruct (split_path_cons c s Hc) as (seg & segs & Hs & ->).
    rewrite Hs in IH. apply Forall_cons in IH as [Hseg Hsegs].
    constructor; [|done]. unfold no_slash in *. simpl. by rewrite Hc.
Qed.

Lemma split_path_single e : no_slash e → split_path e = [e].
Proof.
  unfold no_slash. induction e as [|c e IH]; [done|]. simpl.
  intros [Hc He]%andb_prop. apply negb_true_iff in Hc.
  rewrite Hc. by rewrite IH.
Qed.

Lemma split_path_app e s :
  no_slash e → split_path (e +:+ String "/" s) = e :: split_path s.
Proof.
  unfold no_slash. induction e as [|c e IH]; [done|]. simpl.
  intros [Hc He]%andb_prop. apply negb_true_iff in Hc.
  rewrite Hc. by rewrite IH.
Qed.

Lemma split_join segs :
  Forall no_slash segs → segs ≠ [] → split_path (join_path segs) = segs.
Proof.
  induction 1 as [|e segs He Hsegs IH]; [done|]. intros _.
  destruct segs as [|e' segs]; [by apply split_path_single|].
  change (join_path (e :: e' :: segs))
    with (e +:+ String "/" (join_path (e' :: segs))).
  rewrite split_path_app by done. by rewrite IH.
Qed.

Lemma clean_elems_normal out elems :
  Forall normal_elem out → Forall no_slash elems →
  Forall normal_elem (clean_elems true out elems).
Proof.
  intros Hout Helems. revert out Hout.
  induction Helems as [|e elems He Helems IH]; intros out Hout; simpl.
  { by apply Forall_reverse. }
  case_decide; [by apply IH|]. case_decide as Hdd.
  - destruct out as [|top out']; [by apply IH|].
    apply Forall_cons in Hout as [(_ & _ & Htop & _) Hout'].
    rewrite decide_False by done. by apply IH.
  - apply IH. constructor; [|done]. unfold normal_elem. naive_solver.
Qed.

Lemma clean_elems_id rooted out segs :
  Forall normal_elem segs → clean_elems rooted out segs = reverse out ++ segs.
Proof.
  intros Hsegs. revert out.
  induction Hsegs as [|e segs (? & ? & ? & ?) Hsegs IH]; intros out; simpl.
  { by rewrite (right_id_L [] (++)). }
  rewrite decide_False by (by intros [?|?]). rewrite decide_False by done.
  rewrite IH, reverse_cons. by rewrite <- (assoc_L (++)).
Qed.

Lemma normal_no_slash segs : Forall normal_elem segs → Forall no_slash segs.
Proof.
  intros Hsegs. eapply Forall_impl; [exact Hsegs|]. by intros e (_ & _ & _ & ?).
Qed.

(** A rooted path is cleaned by cleaning its elements. *)
Lemma Clean_rooted s :
  Clean (String "/" s)
  = String "/" (join_path (clean_elems true [] (split_path s))).
Proof. unfold Clean. by rewrite decide_False. Qed.

Lemma Clean_rooted_normal s :
  Forall normal_elem (clean_elems true [] (split_path s)).
Proof. apply clean_elems_normal; [done|apply split_path_no_slash]. Qed.

Lemma Clean_join_normal segs :
  Forall normal_elem segs →
  Clean (String "/" (join_path segs)) = String "/" (join_path segs).
Proof.
  intros Hsegs. rewrite Clean_rooted. f_equal. f_equal.
  destruct segs as [|e segs]; [done|].
  rewrite split_join by (by apply normal_no_slash || done).
  by apply (clean_elems_id true []).
Qed.

(** [Clean] is idempotent on rooted paths, and blind to a doubled leading
    separator. *)
Lemma Clean_rooted_idem s :
  Clean (Clean (String "/" s)) = Clean (String "/" s).
Proof.
  rewrite Clean_rooted. apply Clean_join_normal, Clean_rooted_normal.
Qed.

Lemma Clean_double_slash s :
  Clean (String "/" (String "/" s)) = Clean (String "/" s).
Proof. reflexivity. Qed.

Lemma Clean_rooted_cleaned s : cleaned_abs (Clean (String "/" s)).
Proof. split; [done|apply Clean_rooted_idem]. Qed.

Lemma Join_root attr : Join ["/"; attr] = Clean (String "/" attr).
Proof. reflexivity. Qed.

(** The path looked up by sysfs.go and part_000. *)
Lemma Sysfs_logical_path_rel attr :
  IsAbs attr = false → Sysfs.logical_path attr = Clean (String "/" attr).
Proof.
  intros Hrel. unfold Sysfs.logical_path. rewrite Hrel. simpl negb.
  cbv iota. rewrite Join_root. apply Clean_rooted_idem.
Qed.

Lemma Sysfs_logical_path_abs attr :
  IsAbs attr = true → Sysfs.logical_path attr = Clean attr.
Proof. intros Habs. unfold Sysfs.logical_path. by rewrite Habs. Qed.

Lemma Sysfs_logical_path_cleaned attr :
  cleaned_abs (Sysfs.logical_path attr).
Proof.
  destruct (IsAbs attr) eqn:Habs.
  - rewrite Sysfs_logical_path_abs by done.
    apply IsAbs_inv in Habs as [rest ->]. apply Clean_rooted_cleaned.
  - rewrite Sysfs_logical_path_rel by done. apply Clean_rooted_cleaned.
Qed.

Lemma Part000_logical_path_eq attr :
  Part000.logical_path attr = Sysfs.logical_path attr.
Proof. reflexivity. Qed.

(** The path looked up by part_001: that of sysfs.go for the entry without
    a leading [/sys]. *)
Lemma Part001_logical_path_sys rest :
  Part001.logical_path ("/sys" +:+ rest) = Some (Sysfs.logical_path rest).
Proof.
  unfold Part001.logical_path.
  change (HasPrefix ("/sys" +:+ rest) "/sys") with true. cbv iota.
  rewrite slice_from_Some; [done|].
  unfold len. rewrite length_app. simpl. lia.
Qed.

Lemma Part001_logical_path_other attr :
  HasPrefix attr "/sys" = false →
  Part001.logical_path attr = Some (Sysfs.logical_path attr).
Proof. intros Hp. unfold Part001.logical_path. by rewrite Hp. Qed.

Lemma Part001_logical_path_total attr :
  ∃ lp, Part001.logical_path attr = Some lp ∧ cleaned_abs lp.
Proof.
  destruct (HasPrefix attr "/sys") eqn:Hp.
  - apply HasPrefix_inv in Hp. rewrite Hp.
    rewrite Part001_logical_path_sys. eexists. split; [done|].
    apply Sysfs_logical_path_cleaned.
  - rewrite Part001_logical_path_other by done. eexists. split; [done|].
    apply Sysfs_logical_path_cleaned.
Qed.
End PathFacts.

(** ** The walker *)

Section WalkerFacts.
Variable SysfsDir_Path : string → string.
Variable fs : filesystem.
Implicit Types (attr : string) (whitelist pre post : list string)
  (elements : gmap string string).

Lemma buildAttributeName_total attr :
  IsAbs attr = true →
  ∃ simple refined,
    Sysfs.buildAttributeName attr = Some simple
    ∧ Part000.buildAttributeName attr = Some simple
    ∧ Part001.buildAttributeName attr = Some refined.
Proof.
  intros [rest ->]%IsAbs_inv. pose proof (dotted_abs rest) as Hn.
  eexists. 
  assert (∃ r, Part001.buildAttributeName (String "/" rest) = Some r)
    as [r Hr].
  { destruct (decide (len (dotted rest) ≤ 55)).
    { eexists. by apply refined_short. }
    destruct (decide (0 ≤ index_byte "." (window55 (dotted rest)))) as [Hi|].
    - destruct (refined_cut _ _ Hn ltac:(lia) Hi) as (? & r & _ & _ & ?).
      by exists r.
    - pose proof (index_byte_range "." (window55 (dotted rest))).
      eexists. apply refined_no_dot; [done|lia..]. }
  exists r. split; [by apply simple_name|]. split; [by apply simple_name|done].
Qed.

Lemma Part000_readSingleParameter_total attrPath :
  is_Some (Part000.readSingleParameter fs attrPath).
Proof.
  unfold Part000.readSingleParameter. destruct (os_ReadFile fs attrPath);
    [|done].
  case_decide; [|done]. by rewrite slice_to_Some by lia.
Qed.

Lemma Part001_readSingleParameter_total attrPath :
  is_Some (Part001.readSingleParameter fs attrPath).
Proof.
  unfold Part001.readSingleParameter.
  destruct (os_Stat fs attrPath) as [[]|]; [done| |done].
  destruct (os_ReadFile fs attrPath) as [data|e].
  - destruct (convertToLabel_spec data) as (v & -> & _). done.
  - by destruct (IsPermission e).
Qed.

Lemma Sysfs_Discover_entry_total elements attr :
  is_Some (Sysfs.Discover_entry SysfsDir_Path fs elements attr).
Proof.
  unfold Sysfs.Discover_entry.
  destruct (Sysfs_logical_path_cleaned attr) as [Habs _].
  destruct (buildAttributeName_total _ Habs) as (n & _ & -> & _ & _).
  by destruct (Sysfs.readSingleParameter _ _) as [? []].
Qed.

Lemma Part000_Discover_entry_total elements attr :
  is_Some (Part000.Discover_entry SysfsDir_Path fs elements attr).
Proof.
  unfold Part000.Discover_entry. rewrite Part000_logical_path_eq.
  destruct (Sysfs_logical_path_cleaned attr) as [Habs _].
  destruct (buildAttributeName_total _ Habs) as (n & _ & _ & -> & _).
  destruct (Part000_readSingleParameter_total
              (SysfsDir_Path (Sysfs.logical_path attr))) as [[? []] ->];
    done.
Qed.

Lemma Part001_Discover_entry_total elements attr :
  is_Some (Part001.Discover_entry SysfsDir_Path fs elements attr).
Proof.
  unfold Part001.Discover_entry.
  destruct (Part001_logical_path_total attr) as (lp & -> & Habs & _).
  destruct (buildAttributeName_total _ Habs) as (? & n & _ & _ & Hn).
  simpl. rewrite Hn.
  destruct (Part001_readSingleParameter_total (SysfsDir_Path lp))
    as [[? []] ->]; done.
Qed.

Lemma Sysfs_Discover_loop_total whitelist elements :
  is_Some (Sysfs.Discover_loop SysfsDir_Path fs whitelist elements).
Proof.
  revert elements. induction whitelist as [|attr rest IH]; intros m; simpl;
    [done|].
  destruct (Sysfs_Discover_entry_total m attr) as [m' ->]. apply IH.
Qed.

Lemma Part000_Discover_loop_total whitelist elements :
  is_Some (Part000.Discover_loop SysfsDir_Path fs whitelist elements).
Proof.
  revert elements. induction whitelist as [|attr rest IH]; intros m; simpl;
    [done|].
  destruct (Part000_Discover_entry_total m attr) as [m' ->]. apply IH.
Qed.

Lemma Part001_Discover_loop_total whitelist elements :
  is_Some (Part001.Discover_loop SysfsDir_Path fs whitelist elements).
Proof.
  revert elements. induction whitelist as [|attr rest IH]; intros m; simpl;
    [done|].
  destruct (Part001_Discover_entry_total m attr) as [m' ->]. apply IH.
Qed.

Lemma Sysfs_Discover_loop_app pre post elements :
  Sysfs.Discover_loop SysfsDir_Path fs (pre ++ post) elements
  = Sysfs.Discover_loop SysfsDir_Path fs pre elements
    ≫= Sysfs.Discover_loop SysfsDir_Path fs post.
Proof.
  revert elements. induction pre as [|attr pre IH]; intros m; simpl; [done|].
  destruct (Sysfs.Discover_entry _ _ m attr); simpl; [apply IH|done].
Qed.

Lemma Part000_Discover_loop_app pre post elements :
  Part000.Discover_loop SysfsDir_Path fs (pre ++ post) elements
  = Part000.Discover_loop SysfsDir_Path fs pre elements
    ≫= Part000.Discover_loop SysfsDir_Path fs post.
Proof.
  revert elements. induction pre as [|attr pre IH]; intros m; simpl; [done|].
  destruct (Part000.Discover_entry _ _ m attr); simpl; [apply IH|done].
Qed.

Lemma Part001_Discover_loop_app pre post elements :
  Part001.Discover_loop SysfsDir_Path fs (pre ++ post) elements
  = Part001.Discover_loop SysfsDir_Path fs pre elements
    ≫= Part001.Discover_loop SysfsDir_Path fs post.
Proof.
  revert elements. induction pre as [|attr pre IH]; intros m; simpl; [done|].
  destruct (Part001.Discover_entry _ _ m attr); simpl; [apply IH|done].
Qed.

(** [Discover] returns what its loop has collected, and never an error. *)
Lemma Sysfs_discovered whitelist f elements :
  Sysfs.Discover_loop SysfsDir_Path fs whitelist ∅ = Some elements ↔
  discovered (Sysfs.Discover SysfsDir_Path fs (with_whitelist whitelist f))
    elements.
Proof.
  unfold discovered, Sysfs.Discover. simpl. split.
  - intros ->. by eexists.
  - intros (s & Hs & Hf).
    destruct (Sysfs.Discover_loop _ _ whitelist ∅); simplify_eq/=. done.
Qed.

Lemma Part000_discovered whitelist f elements :
  Part000.Discover_loop SysfsDir_Path fs whitelist ∅ = Some elements ↔
  discovered (Part000.Discover SysfsDir_Path fs (with_whitelist whitelist f))
    elements.
Proof.
  unfold discovered, Part000.Discover. simpl. split.
  - intros ->. by eexists.
  - intros (s & Hs & Hf).
    destruct (Part000.Discover_loop _ _ whitelist ∅); simplify_eq/=. done.
Qed.

Lemma Part001_discovered whitelist f elements :
  Part001.Discover_loop SysfsDir_Path fs whitelist ∅ = Some elements ↔
  discovered (Part001.Discover SysfsDir_Path fs (with_whitelist whitelist f))
    elements.
Proof.
  unfold discovered, Part001.Discover. simpl. split.
  - intros ->. by eexists.
  - intros (s & Hs & Hf).
    destruct (Part001.Discover_loop _ _ whitelist ∅); simplify_eq/=. done.
Qed.
End WalkerFacts.

Section EntryFacts.
Variable SysfsDir_Path : string → string.
Variable fs : filesystem.
Implicit Types (attr lp : string) (pre post : list string)
  (elements : gmap string string).

(** An entry whose turn leaves the elements as they are can be taken out
    of the whitelist. *)
Lemma Sysfs_skip_entry pre attr post :
  (∀ elements,
     Sysfs.Discover_entry SysfsDir_Path fs elements attr = Some elements) →
  Sysfs.Discover_loop SysfsDir_Path fs (pre ++ attr :: post) ∅
  = Sysfs.Discover_loop SysfsDir_Path fs (pre ++ post) ∅.
Proof.
  intros Hskip. rewrite !Sysfs_Discover_loop_app.
  destruct (Sysfs.Discover_loop _ _ pre ∅) as [m|]; simpl; [|done].
  by rewrite Hskip.
Qed.

Lemma Part000_skip_entry pre attr post :
  (∀ elements,
     Part000.Discover_entry SysfsDir_Path fs elements attr = Some elements) →
  Part000.Discover_loop SysfsDir_Path fs (pre ++ attr :: post) ∅
  = Part000.Discover_loop SysfsDir_Path fs (pre ++ post) ∅.
Proof.
  intros Hskip. rewrite !Part000_Discover_loop_app.
  destruct (Part000.Discover_loop _ _ pre ∅) as [m|]; simpl; [|done].
  by rewrite Hskip.
Qed.

Lemma Part001_skip_entry pre attr post :
  (∀ elements,
     Part001.Discover_entry SysfsDir_Path fs elements attr = Some elements) →
  Part001.Discover_loop SysfsDir_Path fs (pre ++ attr :: post) ∅
  = Part001.Discover_loop SysfsDir_Path fs (pre ++ post) ∅.
Proof.
  intros Hskip. rewrite !Part001_Discover_loop_app.
  destruct (Part001.Discover_loop _ _ pre ∅) as [m|]; simpl; [|done].
  by rewrite Hskip.
Qed.

(** An entry recorded with an empty value by part_001. *)
Lemma Part001_empty_entry pre attr lp f :
  Part001.logical_path attr = Some lp →
  Part001.readSingleParameter fs (SysfsDir_Path lp) = Some ("", None) →
  ∃ elements name,
    discovered
      (Part001.Discover SysfsDir_Path fs (with_whitelist pre f)) elements
    ∧ Part001.buildAttributeName lp = Some name
    ∧ discovered
        (Part001.Discover SysfsDir_Path fs (with_whitelist (pre ++ [attr]) f))
        (<[name := ""]> elements).
Proof.
  intros Hlp Hread.
  destruct (Part001_Discover_loop_total SysfsDir_Path fs pre ∅)
    as [elements Hpre].
  destruct (Part001_logical_path_total attr) as (lp' & Hlp' & Habs & _).
  assert (lp' = lp) as -> by congruence.
  destruct (buildAttributeName_total _ Habs) as (_ & name & _ & _ & Hname).
  exists elements, name. split; [by apply Part001_discovered|].
  split; [done|]. apply Part001_discovered.
  rewrite Part001_Discover_loop_app, Hpre. simpl.
  unfold Part001.Discover_entry. rewrite Hlp. simpl.
  rewrite Hread. simpl. by rewrite Hname.
Qed.

Lemma missing_is_skipped attrPath :
  fs attrPath = Absent →
  Sysfs.readSingleParameter fs attrPath
  = ("", Some (FailedToOpen attrPath ENOENT))
  ∧ Part000.readSingleParameter fs attrPath
    = Some ("", Some (FailedToRead attrPath ENOENT))
  ∧ Part001.readSingleParameter fs attrPath
    = Some ("", Some (FailedToRead attrPath ENOENT)).
Proof.
  intros Hfs.
  unfold Sysfs.readSingleParameter, Part000.readSingleParameter,
    Part001.readSingleParameter, os_Open, os_ReadFile, os_Stat.
  by rewrite Hfs.
Qed.
End EntryFacts.

(** C8.  A whitelist entry whose path resolves to no node adds nothing: in
    sysfs.go, part_000 and part_001 [Discover] returns without an error, and
    the ResultSet is the one of the whitelist without that entry. *)
Theorem Discover_skips_missing SysfsDir_Path fs pre attr post f :
  (fs (SysfsDir_Path (Sysfs.logical_path attr)) = Absent →
   (∃ elements,
      discovered
        (Sysfs.Discover SysfsDir_Path fs
           (with_whitelist (pre ++ attr :: post) f)) elements
      ∧ discovered
          (Sysfs.Discover SysfsDir_Path fs (with_whitelist (pre ++ post) f))
          elements)
   ∧ (∃ elements,
        discovered
          (Part000.Discover SysfsDir_Path fs
             (with_whitelist (pre ++ attr :: post) f)) elements
        ∧ discovered
            (Part000.Discover SysfsDir_Path fs
               (with_whitelist (pre ++ post) f)) elements))
  ∧ (∀ lp, Part001.logical_path attr = Some lp →
           fs (SysfsDir_Path lp) = Absent →
           ∃ elements,
             discovered
               (Part001.Discover SysfsDir_Path fs
                  (with_whitelist (pre ++ attr :: post) f)) elements
             ∧ discovered
                 (Part001.Discover SysfsDir_Path fs
                    (with_whitelist (pre ++ post) f)) elements).
Proof.
  split; [intros Hfs; split|intros lp Hlp Hfs];
    destruct (missing_is_skipped fs _ Hfs) as (Hs & H0 & H1).
  - destruct (Sysfs_Discover_loop_total SysfsDir_Path fs (pre ++ post) ∅)
      as [elements Hrun].
    exists elements. split; apply Sysfs_discovered; [|done].
    rewrite Sysfs_skip_entry; [done|].
    intros m. unfold Sysfs.Discover_entry. by rewrite Hs.
  - destruct (Part000_Discover_loop_total SysfsDir_Path fs (pre ++ post) ∅)
      as [elements Hrun].
    exists elements. split; apply Part000_discovered; [|done].
    rewrite Part000_skip_entry; [done|].
    intros m. unfold Part000.Discover_entry.
    rewrite Part000_logical_path_eq. by rewrite H0.
  - destruct (Part001_Discover_loop_total SysfsDir_Path fs (pre ++ post) ∅)
      as [elements Hrun].
    exists elements. split; apply Part001_discovered; [|done].
    rewrite Part001_skip_entry; [done|].
    intros m. unfold Part001.Discover_entry. rewrite Hlp. simpl.
    by rewrite H1.
Qed.

Lemma Discover_skips_missing_witness :
  demo_fs (demo_Path (Sysfs.logical_path "class/none")) = Absent
  ∧ Part001.logical_path "class/none" = Some "/class/none"
  ∧ (∃ elements,
       discovered
         (Sysfs.Discover demo_Path demo_fs
            (with_whitelist (["a b"] ++ "class/none" :: ["class"]) None))
         elements
       ∧ discovered
           (Sysfs.Discover demo_Path demo_fs
              (with_whitelist (["a b"] ++ ["class"]) None)) elements)
  ∧ (∃ elements,
       discovered
         (Part001.Discover demo_Path demo_fs
            (with_whitelist (["a b"] ++ "class/none" :: ["class"]) None))
         elements
       ∧ discovered
           (Part001.Discover demo_Path demo_fs
              (with_whitelist (["a b"] ++ ["class"]) None)) elements).
Proof.
  pose proof (Discover_skips_missing demo_Path demo_fs
    ["a b"] "class/none" ["class"] None) as [H1 H2].
  split; [vm_compute; reflexivity|].
  split; [vm_compute; reflexivity|].
  split.
  - apply H1. vm_compute; reflexivity.
  - apply (H2 "/class/none"); vm_compute; reflexivity.
Defined.



(** C5, as stated, fails: part_001 and part_000 discover the file [a b] and
    [GetLabels] hands the key out with its space. *)
Lemma GetLabels_keeps_space :
  let s := with_whitelist ["a b"] (Some {["a b" := "x"]}) in
  all_bytes label_char "a b" = false
  ∧ Part001.Discover demo_Path demo_fs (with_whitelist ["a b"] None)
    = Some (s, None)
  ∧ Part000.Discover demo_Path demo_fs (with_whitelist ["a b"] None)
    = Some (s, None)
  ∧ (∃ ret, Part001.GetLabels s ret)
  ∧ (∀ ret, Part001.GetLabels s ret → ret.1 !! "a b" = Some "x")
  ∧ (∀ ret, Part000.GetLabels s ret → ret.1 !! "a b" = Some "x").
Proof.
  intros s. split; [reflexivity|].
  split; [vm_compute; reflexivity|]. split; [vm_compute; reflexivity|].
  split; [apply GetLabels_returns|].
  split; intros ret Hret.
  - apply Part001_GetLabels_copy in Hret as ->. apply lookup_singleton_eq.
  - apply Part000_GetLabels_copy in Hret as ->. apply lookup_singleton_eq.
Qed.

Lemma GetLabels_export_witness :
  let src := with_whitelist ["a b"] (Some {["a b" := "x y"]}) in
  ∃ ret, Sysfs.GetLabels src ret
         ∧ ret.2 = None
         ∧ ∀ key value, ret.1 !! key = Some value →
             all_bytes label_char key = true
             ∧ all_bytes label_char value = true
             ∧ ∃ k0 v0, GetFeatures src !! k0 = Some v0
                        ∧ key = replace_runes label_char 0 k0
                        ∧ value = replace_runes label_char 0 v0.
Proof.
  intros src.
  destruct (GetLabels_returns src) as [[ret Hret] _].
  exists ret. split; [done|].
  by apply (GetLabels_export src ret).
Defined.


(** ** The examples of the specification *)

Example name_e2e :
  Part001.buildAttributeName "/class/power_supply/BAT0/capacity"
  = Some "class.power_supply.BAT0.capacity"
  ∧ len "class.power_supply.BAT0.capacity" = 32.
Proof. split; reflexivity. Qed.

Example value_e2e :
  Part001.convertToLabel ("87" +:+ String "010" "") = Some "87".
Proof. reflexivity. Qed.

Example discover_e2e :
  Part001.Discover demo_Path demo_fs
    (with_whitelist ["class/power_supply/BAT0/capacity"] None)
  = Some (with_whitelist ["class/power_supply/BAT0/capacity"]
            (Some {["class.power_supply.BAT0.capacity" := "87"]}), None).
Proof. vm_compute; reflexivity. Qed.

(** A dotted name of 70 bytes whose only [.] has 14 bytes after it. *)
Example truncation_e2e :
  Part001.buildAttributeName
    "/aaaaaaaaaaaaaaaaaaaaaaaaaaaaaaaaaaaaaaaaaaaaaaaaaaaaaaa/bbbbbbbbbbbbbb"
  = Some "bbbbbbbbbbbbbb"
  ∧ Sysfs.buildAttributeName
      "/aaaaaaaaaaaaaaaaaaaaaaaaaaaaaaaaaaaaaaaaaaaaaaaaaaaaaaa/bbbbbbbbbbbbbb"
    = Some "aaaaaaaaaaaaaaaaaaaaaaaaaaaaaaaaaaaaaaaaaaaaaaaaa.bbbbbbbbbbbbbb".
Proof. split; vm_compute; reflexivity. Qed.

(** * Further properties of the code *)

(** ** The name normaliser, beyond the cap *)

Section NameMore.
Implicit Types (attr name rest x y s : string) (c : ascii).

Lemma replace_byte_app c c' s t :
  replace_byte c c' (s +:+ t) = replace_byte c c' s +:+ replace_byte c c' t.
Proof.
  induction s as [|a s IH]; [done|]. rewrite app_String. simpl.
  by rewrite IH, app_String.
Qed.

Lemma all_bytes_app P s t :
  all_bytes P (s +:+ t) = all_bytes P s && all_bytes P t.
Proof.
  induction s as [|a s IH]; [done|]. rewrite app_String. simpl.
  by rewrite IH, andb_assoc.
Qed.

Lemma dotted_no_slash s : no_slash (dotted s).
Proof.
  unfold no_slash, dotted. induction s as [|a s IH]; [done|]. simpl.
  rewrite IH, andb_true_r. by destruct (Ascii.eqb_spec a "/") as [->|?%Ascii.eqb_neq];
    [|apply negb_true_iff].
Qed.

Lemma str_drop_no_slash n s : no_slash s → no_slash (str_drop n s).
Proof.
  unfold no_slash. intros Hs. rewrite <- (str_take_drop n s) in Hs.
  rewrite all_bytes_app in Hs. by apply andb_prop in Hs as [_ ?].
Qed.

Lemma str_drop_app_ge n s t :
  (String.length s ≤ n)%nat →
  str_drop n (s +:+ t) = str_drop (n - String.length s) t.
Proof.
  revert n. induction s as [|a s IH]; intros n Hn; simpl in *.
  - by rewrite Nat.sub_0_r.
  - destruct n as [|n]; [lia|]. rewrite app_String. simpl. apply IH. lia.
Qed.

Lemma dotted_String c rest :
  slice_from (dotted (String c rest)) 1 = Some (dotted rest).
Proof.
  rewrite slice_from_Some; [done|].
  unfold dotted; simpl. rewrite len_String.
  pose proof (len_nonneg (replace_byte "/" "." rest)). lia.
Qed.

(** The refined cut written out: past the first [.] of the window, or at the
    start of the window when [strings.Index] finds none. *)
Lemma refined_long attr name :
  slice_from (dotted attr) 1 = Some name → len name > 55 →
  Part001.buildAttributeName attr
  = Some (str_drop (Z.to_nat (index_byte "." (window55 name) + 1))
            (window55 name)).
Proof.
  intros Hn Hl. pose proof (index_byte_range "." (window55 name)) as Hr.
  rewrite len_window55 in Hr by done.
  unfold Part001.buildAttributeName. fold (dotted attr).
  rewrite Hn. simpl. rewrite decide_True by done.
  rewrite (slice_from_Some name (len name - 55)) by lia. simpl.
  fold (window55 name). rewrite slice_from_Some by lia. f_equal.
  unfold window55 at 3. rewrite str_drop_drop. f_equal. lia.
Qed.

Lemma refined_is_drop attr name :
  slice_from (dotted attr) 1 = Some name →
  ∃ k, Part001.buildAttributeName attr = Some (str_drop k name).
Proof.
  intros Hn. destruct (decide (len name ≤ 55)).
  - exists 0%nat. by apply refined_short.
  - rewrite (refined_long attr name) by (done || lia).
    unfold window55. rewrite str_drop_drop. by eexists.
Qed.

Lemma simple_is_drop attr name :
  slice_from (dotted attr) 1 = Some name →
  ∃ k, Sysfs.buildAttributeName attr = Some (str_drop k name).
Proof.
  intros Hn. rewrite (simple_name attr name Hn).
  case_decide; [by eexists|by exists 0%nat].
Qed.
Lemma dotted_app s t : dotted (s +:+ t) = dotted s +:+ dotted t.
Proof. apply replace_byte_app. Qed.

Lemma len_dotted s : len (dotted s) = len s.
Proof. unfold len, dotted. by rewrite length_replace_byte. Qed.

Lemma len_app s t : len (s +:+ t) = len s + len t.
Proof. unfold len. rewrite length_app. lia. Qed.

(** The last [k] bytes of [s ++ t] are those of [t] when [t] has that
    many. *)
Lemma last_bytes_app s t (k : Z) :
  0 ≤ k ≤ len t →
  str_drop (Z.to_nat (len (s +:+ t) - k)) (s +:+ t)
  = str_drop (Z.to_nat (len t - k)) t.
Proof.
  intros Hk. rewrite len_app. pose proof (len_nonneg s).
  rewrite str_drop_app_ge by (unfold len in *; lia).
  f_equal. unfold len in *. lia.
Qed.
End NameMore.

(** X1.  [buildAttributeName] panics on the empty string, whose dotted form
    cannot be sliced from 1, and on no other input; so in all three
    versions. *)
Theorem buildAttributeName_panics_iff_empty attr :
  (Sysfs.buildAttributeName attr = None ↔ attr = "")
  ∧ (Part000.buildAttributeName attr = None ↔ attr = "")
  ∧ (Part001.buildAttributeName attr = None ↔ attr = "").
Proof.
  destruct attr as [|c rest].
  { repeat split; done. }
  pose proof (dotted_String c rest) as Hn.
  destruct (simple_is_drop _ _ Hn) as [k Hs].
  destruct (refined_is_drop _ _ Hn) as [k' Hr].
  repeat split; intros H; try done.
  - by rewrite Hs in H.
  - change (Part000.buildAttributeName (String c rest))
      with (Sysfs.buildAttributeName (String c rest)) in H. by rewrite Hs in H.
  - by rewrite Hr in H.
Qed.

(** X2.  Whatever name [buildAttributeName] returns is a suffix of the
    dotted form of the path and holds no [/]. *)
Theorem buildAttributeName_suffix_no_slash attr name :
  Sysfs.buildAttributeName attr = Some name
  ∨ Part000.buildAttributeName attr = Some name
  ∨ Part001.buildAttributeName attr = Some name →
  (∃ before, dotted attr = before +:+ name) ∧ no_slash name.
Proof.
  intros H. destruct attr as [|c rest].
  { destruct H as [H|[H|H]]; done. }
  pose proof (dotted_String c rest) as Hn.
  assert (∃ k, name = str_drop k (dotted rest)) as [k ->].
  { destruct (simple_is_drop _ _ Hn) as [k Hs].
    destruct (refined_is_drop _ _ Hn) as [k' Hr].
    change (Part000.buildAttributeName (String c rest))
      with (Sysfs.buildAttributeName (String c rest)) in H.
    destruct H as [H|[H|H]]; [exists k|exists k|exists k']; congruence. }
  split.
  - exists (String (if Ascii.eqb c "/" then "."%char else c)
              (str_take k (dotted rest))).
    rewrite app_String, str_take_drop. done.
  - apply str_drop_no_slash, dotted_no_slash.
Qed.

Lemma buildAttributeName_suffix_no_slash_witness :
  (∃ before, dotted "/class/net/eth0/mtu" = before +:+ "class.net.eth0.mtu")
  ∧ no_slash "class.net.eth0.mtu".
Proof.
  apply (buildAttributeName_suffix_no_slash "/class/net/eth0/mtu").
  right. right. reflexivity.
Defined.

(** X3.  Names collide on long paths: the simple policy keeps the last 64
    bytes and the refined policy looks at the last 55 only, so two paths that
    end in the same [s] get the same name whatever comes before [s], once
    the dotted [s] has 64 bytes (sysfs.go, part_000), or more than 55
    (part_001). *)
Theorem buildAttributeName_collides x y s :
  (64 ≤ len s →
   Sysfs.buildAttributeName (String "/" (x +:+ s))
   = Sysfs.buildAttributeName (String "/" (y +:+ s))
   ∧ Part000.buildAttributeName (String "/" (x +:+ s))
     = Part000.buildAttributeName (String "/" (y +:+ s))
   ∧ Sysfs.buildAttributeName (String "/" (x +:+ s))
     = Some (str_drop (Z.to_nat (len s - 64)) (dotted s)))
  ∧ (55 < len s →
     Part001.buildAttributeName (String "/" (x +:+ s))
     = Part001.buildAttributeName (String "/" (y +:+ s))).
Proof.
  split.
  - intros Hs.
    assert (Hsimple : ∀ z, Sysfs.buildAttributeName (String "/" (z +:+ s))
              = Some (str_drop (Z.to_nat (len s - 64)) (dotted s))).
    { intros z. rewrite (simple_name _ _ (dotted_abs (z +:+ s))). f_equal.
      rewrite dotted_app. pose proof (len_nonneg (dotted z)).
      pose proof (len_dotted s). case_decide as Hl.
      - rewrite last_bytes_app by lia. f_equal. lia.
      - rewrite len_app in Hl.
        assert (Hz : dotted z = "").
        { destruct (dotted z); [done|]. rewrite len_String in Hl.
          pose proof (len_nonneg s0). lia. }
        rewrite Hz, app_empty.
        by replace (Z.to_nat (len s - 64)) with 0%nat by lia. }
    split; [by rewrite !Hsimple|]. split; [|done].
    change (Part000.buildAttributeName (String "/" (x +:+ s)))
      with (Sysfs.buildAttributeName (String "/" (x +:+ s))).
    change (Part000.buildAttributeName (String "/" (y +:+ s)))
      with (Sysfs.buildAttributeName (String "/" (y +:+ s))).
    by rewrite !Hsimple.
  - intros Hs.
    assert (Hrefined : ∀ z, Part001.buildAttributeName (String "/" (z +:+ s))
              = Some (str_drop
                        (Z.to_nat (index_byte "." (window55 (dotted s)) + 1))
                        (window55 (dotted s)))).
    { intros z. pose proof (len_nonneg (dotted z)).
      pose proof (len_dotted s).
      rewrite (refined_long _ _ (dotted_abs (z +:+ s)))
        by (rewrite dotted_app, len_app; lia).
      assert (window55 (dotted (z +:+ s)) = window55 (dotted s)) as ->; [|done].
      unfold window55. rewrite dotted_app. apply last_bytes_app. lia. }
    by rewrite !Hrefined.
Qed.

Lemma buildAttributeName_collides_witness :
  let s := "cccccccccccccccccccccccccccccccccccccccccccccccccccccccccccccccc" in
  (Sysfs.buildAttributeName (String "/" ("a/" +:+ s))
   = Sysfs.buildAttributeName (String "/" ("b/b/" +:+ s))
   ∧ Part000.buildAttributeName (String "/" ("a/" +:+ s))
     = Part000.buildAttributeName (String "/" ("b/b/" +:+ s))
   ∧ Sysfs.buildAttributeName (String "/" ("a/" +:+ s))
     = Some (str_drop (Z.to_nat (len s - 64)) (dotted s)))
  ∧ Part001.buildAttributeName (String "/" ("a/" +:+ s))
    = Part001.buildAttributeName (String "/" ("b/b/" +:+ s)).
Proof.
  intros s. destruct (buildAttributeName_collides "a/" "b/b/" s) as [H1 H2].
  split; [apply H1|apply H2]; vm_compute; [discriminate|reflexivity].
Defined.

(** ** The value sanitisers of the three versions *)

Section ValueMore.
Implicit Types (s v t : string) (c : ascii) (ok : ascii → bool).

Lemma strip_leading_empty ok s :
  strip_leading ok s = "" ↔ all_bytes (λ c, negb (ok c)) s = true.
Proof.
  induction s as [|a s IH]; simpl; [done|].
  destruct (ok a); simpl; [split; done|exact IH].
Qed.

Lemma strip_trailing_nonempty ok c s :
  ok c = true → strip_trailing ok (String c s) ≠ "".
Proof. intros Hc. simpl. destruct (strip_trailing ok s); by rewrite ?Hc. Qed.

Lemma collapse_runs_bad ok s :
  s ≠ "" → all_bytes (λ c, negb (ok c)) s = true →
  collapse_runs ok false s = "_" ∧ collapse_runs ok true s = "".
Proof.
  induction s as [|a s IH]; [done|]. intros _. simpl.
  intros [Ha Hs]%andb_prop. apply negb_true_iff in Ha. rewrite Ha.
  destruct s as [|b s]; [done|].
  destruct IH as [_ ->]; done.
Qed.

Lemma collapse_runs_app_bad ok v t :
  all_bytes ok v = true → v ≠ "" →
  t ≠ "" → all_bytes (λ c, negb (ok c)) t = true →
  collapse_runs ok false (v +:+ t) = v +:+ "_".
Proof.
  intros Hv Hne Ht Hbad. induction v as [|a v IH]; [done|].
  rewrite !app_String. simpl in *. apply andb_prop in Hv as [Ha Hv].
  rewrite Ha. f_equal. destruct v as [|b v].
  - rewrite !app_empty. by apply collapse_runs_bad.
  - by apply IH.
Qed.

Lemma label_char_no_space c s :
  label_char c = true → space_width (String c s) = 0%nat.
Proof.
  intros Hc. destruct c as [[] [] [] [] [] [] [] []]; try discriminate Hc;
    destruct s as [|b1 [|b2 r]]; reflexivity.
Qed.

Lemma trim_left_label c s :
  label_char c = true → trim_left 0 (String c s) = String c s.
Proof.
  intros Hc. cbn [trim_left]. by rewrite (label_char_no_space c s Hc).
Qed.

Lemma trim_right_line v :
  all_bytes label_char v = true → trim_right (v +:+ String "010" "") = v.
Proof.
  induction v as [|a v IH]; [done|]. cbn [all_bytes].
  intros [Ha Hv]%andb_prop. rewrite app_String. cbn [trim_right].
  rewrite trim_left_label by done. rewrite decide_False by done.
  by rewrite IH.
Qed.

(** A line of label characters followed by a line feed is trimmed to the
    line. *)
Lemma TrimSpace_line v :
  all_bytes label_char v = true → TrimSpace (v +:+ String "010" "") = v.
Proof.
  intros Hv. unfold TrimSpace. destruct v as [|a v]; [done|].
  rewrite app_String, trim_left_label by (by apply andb_prop in Hv as [? _]).
  rewrite <- app_String. by apply trim_right_line.
Qed.
End ValueMore.

Section TrimFacts.
Implicit Types (s t : string) (c : ascii) (k : nat).

Lemma trim_left_length k s :
  (String.length (trim_left k s) ≤ String.length s)%nat.
Proof.
  revert k. induction s as [|a s IH]; intros k; [done|]. cbn [trim_left].
  destruct k as [|k]; [|specialize (IH k); simpl; lia].
  destruct (space_width (String a s)) as [|k]; [done|].
  specialize (IH k). simpl. lia.
Qed.

Lemma trim_right_length s :
  (String.length (trim_right s) ≤ String.length s)%nat.
Proof.
  induction s as [|a s IH]; [done|]. cbn [trim_right].
  case_decide; simpl; lia.
Qed.

(** What is left does not start with a white-space rune. *)
Lemma trim_left_no_space k s : space_width (trim_left k s) = 0%nat.
Proof.
  revert k. induction s as [|a s IH]; intros k; [done|]. cbn [trim_left].
  destruct k as [|k]; [|apply IH].
  destruct (space_width (String a s)) as [|k] eqn:Hw; [done|apply IH].
Qed.

Lemma space_width_ascii c s :
  ascii_space c = true → space_width (String c s) = 1%nat.
Proof. unfold ascii_space, space_width. by intros ->. Qed.

Lemma space_width_first c s :
  space_width (String c s) = 0%nat → ascii_space c = false.
Proof.
  intros Hw. destruct (ascii_space c) eqn:Hc; [|done].
  by rewrite (space_width_ascii c s Hc) in Hw.
Qed.

Lemma trim_right_first s c :
  first_byte (trim_right s) = Some c → first_byte s = Some c.
Proof. destruct s as [|a s]; [done|]. cbn [trim_right]. by case_decide. Qed.

Lemma trim_right_empty s : trim_right s = "" → trim_left 0 s = "".
Proof. destruct s as [|a s]; [done|]. cbn [trim_right]. by case_decide. Qed.

Lemma trim_right_last s c :
  last_byte (trim_right s) = Some c → ascii_space c = false.
Proof.
  induction s as [|a s IH]; [done|]. cbn [trim_right].
  case_decide as Hall; [done|].
  destruct (trim_right s) as [|b t] eqn:Ht.
  - simpl. intros [= <-]. destruct (ascii_space a) eqn:Ha; [|done].
    exfalso. apply Hall. cbn [trim_left].
    rewrite (space_width_ascii a s Ha). by apply trim_right_empty.
  - intros Hl. apply IH. exact Hl.
Qed.

Lemma TrimSpace_shape s :
  (String.length (TrimSpace s) ≤ String.length s)%nat
  ∧ ∀ c, first_byte (TrimSpace s) = Some c ∨ last_byte (TrimSpace s) = Some c →
         ascii_space c = false.
Proof.
  unfold TrimSpace. split.
  - pose proof (trim_right_length (trim_left 0 s)).
    pose proof (trim_left_length 0 s). lia.
  - intros c [Hc|Hc].
    + apply trim_right_first in Hc. pose proof (trim_left_no_space 0 s) as Hw.
      destruct (trim_left 0 s) as [|a r]; [done|]. injection Hc as ->.
      by apply (space_width_first c r).
    + by apply (trim_right_last (trim_left 0 s)).
Qed.
End TrimFacts.

(** X4.  [convertToLabel] of part_001 returns the empty value exactly for the
    contents that hold no byte of [[-A-Za-z0-9]]. *)
Theorem convertToLabel_empty_iff str :
  Part001.convertToLabel str = Some ""
  ↔ all_bytes (λ c, negb (label_edge c)) str = true.
Proof.
  unfold Part001.convertToLabel. case_decide as Hstr; [by subst|].
  destruct (strip_leading label_edge str) as [|a r] eqn:Hv1.
  - simpl. split; [|done]. intros _. by apply strip_leading_empty.
  - assert (Ha : label_edge a = true).
    { apply (strip_leading_first label_edge str). by rewrite Hv1. }
    split.
    + intros Hret. exfalso. cbn [collapse_runs] in Hret.
      rewrite (label_edge_char a Ha) in Hret.
      set (v2 := String a (collapse_runs label_char false r)) in Hret.
      assert (∃ t, (if decide (len v2 > 62) then slice_to v2 62 else Some v2)
                   = Some (String a t)) as [t Ht].
      { case_decide; [|by eexists].
        rewrite slice_to_Some by lia. by eexists. }
      rewrite Ht in Hret. simpl in Hret. injection Hret as Hret.
      by apply (strip_trailing_nonempty label_edge a t Ha).
    + intros Hbad%strip_leading_empty. by rewrite Hv1 in Hbad.
Qed.

(** X5.  The values that [convertToLabel] returns unchanged are exactly those
    of at most 62 bytes, all in [[-A-Za-z0-9_.]], that begin and end with a
    byte of [[-A-Za-z0-9]]. *)
Theorem convertToLabel_fixed_points value :
  Part001.convertToLabel value = Some value ↔ label_value value.
Proof.
  unfold label_value. split.
  - intros Hv. destruct (convertToLabel_spec value) as (v & Hv' & H).
    assert (v = value) as -> by congruence. exact H.
  - intros (? & ? & ? & ?). by apply convertToLabel_fix.
Qed.

(** X6.  The usual content of an attribute file, a valid label value [v]
    followed by a line feed: sysfs.go and part_001 return [v], part_000
    turns the line feed into [_] and returns [v_]. *)
Theorem value_with_line_feed fs attrPath v :
  fs attrPath = Regular (v +:+ String "010" "") →
  label_value v → v ≠ "" → len v < 62 →
  Sysfs.readSingleParameter fs attrPath = (v, None)
  ∧ Part000.readSingleParameter fs attrPath = Some (v +:+ "_", None)
  ∧ Part001.readSingleParameter fs attrPath = Some (v, None).
Proof.
  intros Hfs (Hlen & Hall & Hfirst & Hlast) Hne Hshort.
  destruct (first_byte_is_Some v Hne) as [a Ha].
  destruct (last_byte_is_Some v Hne) as [z Hz].
  assert (Hlf : len (v +:+ String "010" "") = len v + 1).
  { rewrite len_app. done. }
  assert (Hfa : first_byte (v +:+ String "010" "") = Some a).
  { destruct v; [done|]. by rewrite app_String. }
  assert (Hca : label_char a = true) by auto using label_edge_char.
  split; [|split].
  - unfold Sysfs.readSingleParameter, os_Open. rewrite Hfs.
    unfold file_Read. rewrite decide_False by (by destruct v).
    rewrite str_take_all by (unfold len in *; lia).
    by rewrite TrimSpace_line.
  - unfold Part000.readSingleParameter, os_ReadFile. rewrite Hfs.
    rewrite (strip_leading_id label_char _ a Hfa Hca).
    rewrite collapse_runs_app_bad by done.
    rewrite decide_False; [done|]. rewrite len_app. change (len "_") with 1.
    lia.
  - unfold Part001.readSingleParameter, os_Stat, os_ReadFile. rewrite Hfs.
    unfold Part001.convertToLabel. rewrite decide_False by (by destruct v).
    rewrite (strip_leading_id label_edge _ a Hfa (Hfirst a Ha)).
    rewrite collapse_runs_app_bad by done.
    rewrite decide_False by (rewrite len_app; change (len "_") with 1; lia).
    simpl. f_equal. f_equal.
    clear -Hz Hlast. specialize (Hlast z Hz).
    induction v as [|b v IH]; [done|]. rewrite app_String. simpl.
    destruct v as [|b' v'].
    + simpl in *. injection Hz as ->. by rewrite Hlast.
    + rewrite IH by done. done.
Qed.

Lemma value_with_line_feed_witness :
  Sysfs.readSingleParameter demo_fs
    "/host-sys/class/power_supply/BAT0/capacity" = ("87", None)
  ∧ Part000.readSingleParameter demo_fs
      "/host-sys/class/power_supply/BAT0/capacity" = Some ("87" +:+ "_", None)
  ∧ Part001.readSingleParameter demo_fs
      "/host-sys/class/power_supply/BAT0/capacity" = Some ("87", None).
Proof.
  apply (value_with_line_feed demo_fs
           "/host-sys/class/power_supply/BAT0/capacity" "87").
  - reflexivity.
  - unfold label_value. split; [vm_compute; discriminate|].
    split; [reflexivity|].
    split; intros c [= <-]; reflexivity.
  - discriminate.
  - reflexivity.
Defined.

(** X7.  sysfs.go on a regular file: an empty file makes [Read] return
    [io.EOF] and [readSingleParameter] fail; any other content gives a value
    of at most 62 bytes, cut from the first 62 bytes of the file, that
    neither begins nor ends with ASCII white space. *)
Theorem sysfs_value_shape fs attrPath data :
  fs attrPath = Regular data →
  (data = "" →
   Sysfs.readSingleParameter fs attrPath
   = ("", Some (FailedToRead attrPath EOF)))
  ∧ (data ≠ "" →
     Sysfs.readSingleParameter fs attrPath
     = (TrimSpace (str_take 62 data), None)
     ∧ len (TrimSpace (str_take 62 data)) ≤ 62
     ∧ ∀ c, first_byte (TrimSpace (str_take 62 data)) = Some c
            ∨ last_byte (TrimSpace (str_take 62 data)) = Some c →
            ascii_space c = false).
Proof.
  intros Hfs. unfold Sysfs.readSingleParameter, os_Open. rewrite Hfs.
  unfold file_Read. split.
  - intros ->. done.
  - intros Hne. rewrite decide_False by done. split; [done|].
    destruct (TrimSpace_shape (str_take 62 data)) as [Hl Hc].
    split; [|exact Hc].
    unfold len. rewrite length_str_take in Hl. lia.
Qed.

Lemma sysfs_value_shape_witness :
  Sysfs.readSingleParameter demo_fs "/host-sys/a b"
  = (TrimSpace (str_take 62 "x"), None)
  ∧ len (TrimSpace (str_take 62 "x")) ≤ 62
  ∧ ∀ c, first_byte (TrimSpace (str_take 62 "x")) = Some c
         ∨ last_byte (TrimSpace (str_take 62 "x")) = Some c →
         ascii_space c = false.
Proof.
  destruct (sysfs_value_shape demo_fs "/host-sys/a b" "x") as [_ H];
    [reflexivity|].
  apply H. discriminate.
Defined.

(** ** The loop of [Discover] as a fold *)

Section WalkFacts.
Variable step : gmap string string → string → option (gmap string string).
Variable records : string → string → string → Prop.
Hypothesis step_spec : ∀ elements attr,
  (step elements attr = Some elements ∧ ∀ k v, ¬ records attr k v)
  ∨ (∃ k v, records attr k v
            ∧ step elements attr = Some (<[k := v]> elements)).
Hypothesis records_fun : ∀ attr k v k' v',
  records attr k v → records attr k' v' → k = k' ∧ v = v'.
Implicit Types (l pre post : list string) (m : gmap string string).

Lemma walk_app pre post m :
  walk step (pre ++ post) m = walk step pre m ≫= walk step post.
Proof.
  revert m. induction pre as [|attr pre IH]; intros m; simpl; [done|].
  destruct (step m attr); simpl; [apply IH|done].
Qed.

Lemma walk_total l m : is_Some (walk step l m).
Proof.
  revert m. induction l as [|attr l IH]; intros m; simpl; [done|].
  destruct (step_spec m attr) as [[-> _]|(k & v & _ & ->)]; apply IH.
Qed.

Lemma walk_origin l m m' k v :
  walk step l m = Some m' → m' !! k = Some v →
  m !! k = Some v ∨ ∃ attr, attr ∈ l ∧ records attr k v.
Proof.
  revert m. induction l as [|attr l IH]; intros m; simpl.
  { intros [= ->]. auto. }
  destruct (step_spec m attr) as [[-> _]|(k0 & v0 & Hrec & ->)]; simpl;
    intros Hw Hk; destruct (IH _ Hw Hk) as [Hm|(a & Ha & Hr)].
  - by left.
  - right. exists a. split; [by right|done].
  - destruct (decide (k0 = k)) as [->|Hne].
    + rewrite lookup_insert_eq in Hm. injection Hm as ->.
      right. exists attr. split; [left|done].
    + rewrite lookup_insert_ne in Hm by done. by left.
  - right. exists a. split; [by right|done].
Qed.

Lemma walk_unrecorded l m m' k :
  walk step l m = Some m' →
  (∀ attr v, attr ∈ l → ¬ records attr k v) → m' !! k = m !! k.
Proof.
  revert m. induction l as [|attr l IH]; intros m; simpl.
  { by intros [= ->]. }
  intros Hw Hno.
  assert (Hl : ∀ a v, a ∈ l → ¬ records a k v)
    by (intros a v Ha; apply Hno; by right).
  destruct (step_spec m attr) as [[Hs _]|(k0 & v0 & Hrec & Hs)];
    rewrite Hs in Hw; simpl in Hw; rewrite (IH _ Hw Hl); [done|].
  apply lookup_insert_ne. intros ->. apply (Hno attr v0); [left|done].
Qed.

(** The last entry recorded under a name decides its value. *)
Lemma walk_last_wins pre attr post m m' k v :
  walk step (pre ++ attr :: post) m = Some m' →
  records attr k v →
  (∀ attr' v', attr' ∈ post → ¬ records attr' k v') →
  m' !! k = Some v.
Proof.
  rewrite walk_app. destruct (walk step pre m) as [m1|]; simpl; [|done].
  destruct (step_spec m1 attr) as [[_ Hno]|(k0 & v0 & Hrec & ->)].
  { intros _ Hr. by destruct (Hno k v). }
  simpl. intros Hw Hr Hpost.
  destruct (records_fun _ _ _ _ _ Hrec Hr) as [-> ->].
  rewrite (walk_unrecorded _ _ _ _ Hw Hpost). apply lookup_insert_eq.
Qed.

Lemma walk_skip pre attr post m :
  (∀ k v, ¬ records attr k v) →
  walk step (pre ++ attr :: post) m = walk step (pre ++ post) m.
Proof.
  intros Hno. rewrite !walk_app.
  destruct (walk step pre m) as [m1|]; simpl; [|done].
  destruct (step_spec m1 attr) as [[-> _]|(k & v & Hrec & _)]; [done|].
  by destruct (Hno k v).
Qed.

Lemma walk_size l m m' :
  walk step l m = Some m' → (size m' ≤ size m + length l)%nat.
Proof.
  revert m. induction l as [|attr l IH]; intros m; simpl.
  { intros [= ->]. lia. }
  destruct (step_spec m attr) as [[-> _]|(k & v & _ & ->)]; simpl;
    intros Hw%IH; [lia|].
  pose proof (map_size_insert k v m) as Hs.
  destruct (m !! k); simpl in *; lia.
Qed.
End WalkFacts.

(** ** The three walkers as instances *)

Section Instances.
Variable SysfsDir_Path : string → string.
Variable fs : filesystem.
Implicit Types (attr name value : string) (l : list string)
  (m : gmap string string).

Lemma Sysfs_loop_walk l m :
  Sysfs.Discover_loop SysfsDir_Path fs l m
  = walk (Sysfs.Discover_entry SysfsDir_Path fs) l m.
Proof.
  revert m. induction l as [|attr l IH]; intros m; simpl; [done|].
  destruct (Sysfs.Discover_entry _ _ m attr); simpl; [apply IH|done].
Qed.

Lemma Part000_loop_walk l m :
  Part000.Discover_loop SysfsDir_Path fs l m
  = walk (Part000.Discover_entry SysfsDir_Path fs) l m.
Proof.
  revert m. induction l as [|attr l IH]; intros m; simpl; [done|].
  destruct (Part000.Discover_entry _ _ m attr); simpl; [apply IH|done].
Qed.

Lemma Part001_loop_walk l m :
  Part001.Discover_loop SysfsDir_Path fs l m
  = walk (Part001.Discover_entry SysfsDir_Path fs) l m.
Proof.
  revert m. induction l as [|attr l IH]; intros m; simpl; [done|].
  destruct (Part001.Discover_entry _ _ m attr); simpl; [apply IH|done].
Qed.

Lemma sysfs_step_spec m attr :
  (Sysfs.Discover_entry SysfsDir_Path fs m attr = Some m
   ∧ ∀ k v, ¬ sysfs_records SysfsDir_Path fs attr k v)
  ∨ (∃ k v, sysfs_records SysfsDir_Path fs attr k v
            ∧ Sysfs.Discover_entry SysfsDir_Path fs m attr
              = Some (<[k := v]> m)).
Proof.
  unfold Sysfs.Discover_entry, sysfs_records.
  destruct (Sysfs_logical_path_cleaned attr) as [Habs _].
  destruct (buildAttributeName_total _ Habs) as (n & _ & Hn & _ & _).
  destruct (Sysfs.readSingleParameter _ _) as [v [err|]].
  - left. split; [done|]. by intros k v' [_ ?].
  - right. exists n, v. rewrite Hn. done.
Qed.

Lemma part000_step_spec m attr :
  (Part000.Discover_entry SysfsDir_Path fs m attr = Some m
   ∧ ∀ k v, ¬ part000_records SysfsDir_Path fs attr k v)
  ∨ (∃ k v, part000_records SysfsDir_Path fs attr k v
            ∧ Part000.Discover_entry SysfsDir_Path fs m attr
              = Some (<[k := v]> m)).
Proof.
  unfold Part000.Discover_entry, part000_records.
  rewrite Part000_logical_path_eq.
  destruct (Sysfs_logical_path_cleaned attr) as [Habs _].
  destruct (buildAttributeName_total _ Habs) as (n & _ & _ & Hn & _).
  destruct (Part000_readSingleParameter_total fs
              (SysfsDir_Path (Sysfs.logical_path attr))) as [[v [err|]] ->];
    simpl.
  - left. split; [done|]. by intros k v' [_ ?].
  - right. exists n, v. rewrite Hn. done.
Qed.

Lemma part001_step_spec m attr :
  (Part001.Discover_entry SysfsDir_Path fs m attr = Some m
   ∧ ∀ k v, ¬ part001_records SysfsDir_Path fs attr k v)
  ∨ (∃ k v, part001_records SysfsDir_Path fs attr k v
            ∧ Part001.Discover_entry SysfsDir_Path fs m attr
              = Some (<[k := v]> m)).
Proof.
  unfold Part001.Discover_entry, part001_records.
  destruct (Part001_logical_path_total attr) as (lp & Hlp & Habs & _).
  rewrite Hlp. simpl.
  destruct (buildAttributeName_total _ Habs) as (_ & n & _ & _ & Hn).
  destruct (Part001_readSingleParameter_total fs (SysfsDir_Path lp))
    as [[v [err|]] Hr]; rewrite Hr; simpl.
  - left. split; [done|]. intros k v' (lp' & [= <-] & _ & ?). congruence.
  - right. exists n, v. rewrite Hn. split; [|done]. by exists lp.
Qed.

Lemma sysfs_records_fun attr k v k' v' :
  sysfs_records SysfsDir_Path fs attr k v →
  sysfs_records SysfsDir_Path fs attr k' v' → k = k' ∧ v = v'.
Proof. intros [? ?] [? ?]. split; congruence. Qed.

Lemma part000_records_fun attr k v k' v' :
  part000_records SysfsDir_Path fs attr k v →
  part000_records SysfsDir_Path fs attr k' v' → k = k' ∧ v = v'.
Proof. intros [? ?] [? ?]. split; congruence. Qed.

Lemma part001_records_fun attr k v k' v' :
  part001_records SysfsDir_Path fs attr k v →
  part001_records SysfsDir_Path fs attr k' v' → k = k' ∧ v = v'.
Proof.
  intros (lp & ? & ? & ?) (lp' & ? & ? & ?).
  assert (lp' = lp) as -> by congruence. split; congruence.
Qed.

(** The ResultSet of a run is what the fold leaves. *)
Lemma Sysfs_discovered_walk l f elements :
  discovered (Sysfs.Discover SysfsDir_Path fs (with_whitelist l f)) elements
  ↔ walk (Sysfs.Discover_entry SysfsDir_Path fs) l ∅ = Some elements.
Proof. by rewrite <- Sysfs_discovered, Sysfs_loop_walk. Qed.

Lemma Part000_discovered_walk l f elements :
  discovered (Part000.Discover SysfsDir_Path fs (with_whitelist l f)) elements
  ↔ walk (Part000.Discover_entry SysfsDir_Path fs) l ∅ = Some elements.
Proof. by rewrite <- Part000_discovered, Part000_loop_walk. Qed.

Lemma Part001_discovered_walk l f elements :
  discovered (Part001.Discover SysfsDir_Path fs (with_whitelist l f)) elements
  ↔ walk (Part001.Discover_entry SysfsDir_Path fs) l ∅ = Some elements.
Proof. by rewrite <- Part001_discovered, Part001_loop_walk. Qed.
End Instances.

(** X8.  Nothing is invented: every name and value of the ResultSet that
    [Discover] leaves is the name of the looked-up path of some whitelist
    entry and the value that [readSingleParameter] returned for it without
    an error. *)
Theorem Discover_sound SysfsDir_Path fs l f elements k v :
  elements !! k = Some v →
  (discovered (Sysfs.Discover SysfsDir_Path fs (with_whitelist l f)) elements →
   ∃ attr, attr ∈ l ∧ sysfs_records SysfsDir_Path fs attr k v)
  ∧ (discovered (Part000.Discover SysfsDir_Path fs (with_whitelist l f))
       elements →
     ∃ attr, attr ∈ l ∧ part000_records SysfsDir_Path fs attr k v)
  ∧ (discovered (Part001.Discover SysfsDir_Path fs (with_whitelist l f))
       elements →
     ∃ attr, attr ∈ l ∧ part001_records SysfsDir_Path fs attr k v).
Proof.
  intros Hk. split; [|split].
  - intros Hw%Sysfs_discovered_walk.
    destruct (walk_origin _ _ (sysfs_step_spec SysfsDir_Path fs)
                _ _ _ _ _ Hw Hk) as [Hm|?]; [|done].
    by rewrite lookup_empty in Hm.
  - intros Hw%Part000_discovered_walk.
    destruct (walk_origin _ _ (part000_step_spec SysfsDir_Path fs)
                _ _ _ _ _ Hw Hk) as [Hm|?]; [|done].
    by rewrite lookup_empty in Hm.
  - intros Hw%Part001_discovered_walk.
    destruct (walk_origin _ _ (part001_step_spec SysfsDir_Path fs)
                _ _ _ _ _ Hw Hk) as [Hm|?]; [|done].
    by rewrite lookup_empty in Hm.
Qed.

(** X9.  Names that collide overwrite: the value under a name is the one of
    the last whitelist entry recorded under that name. *)
Theorem Discover_last_wins SysfsDir_Path fs pre attr post f elements k v :
  (discovered
     (Sysfs.Discover SysfsDir_Path fs (with_whitelist (pre ++ attr :: post) f))
     elements →
   sysfs_records SysfsDir_Path fs attr k v →
   (∀ attr' v', attr' ∈ post → ¬ sysfs_records SysfsDir_Path fs attr' k v') →
   elements !! k = Some v)
  ∧ (discovered
       (Part000.Discover SysfsDir_Path fs
          (with_whitelist (pre ++ attr :: post) f)) elements →
     part000_records SysfsDir_Path fs attr k v →
     (∀ attr' v', attr' ∈ post →
                  ¬ part000_records SysfsDir_Path fs attr' k v') →
     elements !! k = Some v)
  ∧ (discovered
       (Part001.Discover SysfsDir_Path fs
          (with_whitelist (pre ++ attr :: post) f)) elements →
     part001_records SysfsDir_Path fs attr k v →
     (∀ attr' v', attr' ∈ post →
                  ¬ part001_records SysfsDir_Path fs attr' k v') →
     elements !! k = Some v).
Proof.
  split; [|split].
  - intros Hw%Sysfs_discovered_walk.
    by apply (walk_last_wins _ _ (sysfs_step_spec SysfsDir_Path fs)
                (sysfs_records_fun SysfsDir_Path fs) _ _ _ _ _ _ _ Hw).
  - intros Hw%Part000_discovered_walk.
    by apply (walk_last_wins _ _ (part000_step_spec SysfsDir_Path fs)
                (part000_records_fun SysfsDir_Path fs) _ _ _ _ _ _ _ Hw).
  - intros Hw%Part001_discovered_walk.
    by apply (walk_last_wins _ _ (part001_step_spec SysfsDir_Path fs)
                (part001_records_fun SysfsDir_Path fs) _ _ _ _ _ _ _ Hw).
Qed.

(** X10.  An entry whose path is not read without an error is skipped: the
    run goes on and leaves the ResultSet of the whitelist without the
    entry. *)
Theorem Discover_skips_unrecorded SysfsDir_Path fs pre attr post f :
  ((∀ k v, ¬ sysfs_records SysfsDir_Path fs attr k v) →
   ∃ elements,
     discovered
       (Sysfs.Discover SysfsDir_Path fs
          (with_whitelist (pre ++ attr :: post) f)) elements
     ∧ discovered
         (Sysfs.Discover SysfsDir_Path fs (with_whitelist (pre ++ post) f))
         elements)
  ∧ ((∀ k v, ¬ part000_records SysfsDir_Path fs attr k v) →
     ∃ elements,
       discovered
         (Part000.Discover SysfsDir_Path fs
            (with_whitelist (pre ++ attr :: post) f)) elements
       ∧ discovered
           (Part000.Discover SysfsDir_Path fs (with_whitelist (pre ++ post) f))
           elements)
  ∧ ((∀ k v, ¬ part001_records SysfsDir_Path fs attr k v) →
     ∃ elements,
       discovered
         (Part001.Discover SysfsDir_Path fs
            (with_whitelist (pre ++ attr :: post) f)) elements
       ∧ discovered
           (Part001.Discover SysfsDir_Path fs (with_whitelist (pre ++ post) f))
           elements).
Proof.
  split; [|split]; intros Hno.
  - destruct (walk_total _ _ (sysfs_step_spec SysfsDir_Path fs)
                (pre ++ post) ∅) as [elements Hw].
    exists elements. split; apply Sysfs_discovered_walk; [|done].
    by rewrite (walk_skip _ _ (sysfs_step_spec SysfsDir_Path fs)).
  - destruct (walk_total _ _ (part000_step_spec SysfsDir_Path fs)
                (pre ++ post) ∅) as [elements Hw].
    exists elements. split; apply Part000_discovered_walk; [|done].
    by rewrite (walk_skip _ _ (part000_step_spec SysfsDir_Path fs)).
  - destruct (walk_total _ _ (part001_step_spec SysfsDir_Path fs)
                (pre ++ post) ∅) as [elements Hw].
    exists elements. split; apply Part001_discovered_walk; [|done].
    by rewrite (walk_skip _ _ (part001_step_spec SysfsDir_Path fs)).
Qed.

(** X11.  [Discover] always returns, without an error, and leaves at most as
    many entries as the whitelist has (none for an empty whitelist). *)
Theorem Discover_size SysfsDir_Path fs l f :
  (∃ elements,
     discovered (Sysfs.Discover SysfsDir_Path fs (with_whitelist l f)) elements
     ∧ (size elements ≤ length l)%nat)
  ∧ (∃ elements,
       discovered (Part000.Discover SysfsDir_Path fs (with_whitelist l f))
         elements
       ∧ (size elements ≤ length l)%nat)
  ∧ (∃ elements,
       discovered (Part001.Discover SysfsDir_Path fs (with_whitelist l f))
         elements
       ∧ (size elements ≤ length l)%nat).
Proof.
  split; [|split].
  - destruct (walk_total _ _ (sysfs_step_spec SysfsDir_Path fs) l ∅)
      as [elements Hw].
    exists elements. split; [by apply Sysfs_discovered_walk|].
    apply (walk_size _ _ (sysfs_step_spec SysfsDir_Path fs)) in Hw.
    by rewrite map_size_empty in Hw.
  - destruct (walk_total _ _ (part000_step_spec SysfsDir_Path fs) l ∅)
      as [elements Hw].
    exists elements. split; [by apply Part000_discovered_walk|].
    apply (walk_size _ _ (part000_step_spec SysfsDir_Path fs)) in Hw.
    by rewrite map_size_empty in Hw.
  - destruct (walk_total _ _ (part001_step_spec SysfsDir_Path fs) l ∅)
      as [elements Hw].
    exists elements. split; [by apply Part001_discovered_walk|].
    apply (walk_size _ _ (part001_step_spec SysfsDir_Path fs)) in Hw.
    by rewrite map_size_empty in Hw.
Qed.

(** ** What the ResultSet and the labels look like *)

Section ShapeFacts.
Implicit Types (attr name value : string).

Lemma simple_name_cap attr name :
  Sysfs.buildAttributeName attr = Some name → len name ≤ 64 ∧ no_slash name.
Proof.
  destruct attr as [|c rest]; [done|].
  rewrite (simple_name _ _ (dotted_String c rest)). intros [= <-].
  pose proof (len_nonneg (dotted rest)). pose proof (dotted_no_slash rest).
  case_decide; (split; [|auto using str_drop_no_slash]); [|lia].
  rewrite len_str_drop; lia.
Qed.

Lemma refined_name_cap attr name :
  Part001.buildAttributeName attr = Some name → len name ≤ 55 ∧ no_slash name.
Proof.
  destruct attr as [|c rest]; [done|].
  pose proof (dotted_String c rest) as Hn.
  pose proof (dotted_no_slash rest) as Hns.
  destruct (decide (len (dotted rest) ≤ 55)) as [Hs|Hl].
  - rewrite (refined_short _ _ Hn Hs). by intros [= <-].
  - rewrite (refined_long _ _ Hn) by lia. intros [= <-].
    pose proof (len_window55 (dotted rest) ltac:(lia)) as Hw.
    pose proof (index_byte_range "." (window55 (dotted rest))).
    split.
    + rewrite len_str_drop; lia.
    + unfold window55. auto using str_drop_no_slash.
Qed.

Lemma sysfs_read_shape fs attrPath value :
  Sysfs.readSingleParameter fs attrPath = (value, None) →
  len value ≤ 62
  ∧ ∀ c, first_byte value = Some c ∨ last_byte value = Some c →
         ascii_space c = false.
Proof.
  unfold Sysfs.readSingleParameter.
  destruct (os_Open fs attrPath) as [file|]; [|done].
  destruct (file_Read file 62) as [bytes|] eqn:Hread; [|done].
  intros [= <-]. destruct (TrimSpace_shape bytes) as [Hl Hc].
  split; [|done].
  assert (String.length bytes ≤ 62)%nat; [|unfold len; lia].
  unfold file_Read in Hread. destruct file; try done.
  destruct (decide (content = "")); [done|].
  assert (bytes = str_take 62 content) as -> by congruence.
  rewrite length_str_take. lia.
Qed.

Lemma part000_read_shape fs attrPath value :
  Part000.readSingleParameter fs attrPath = Some (value, None) →
  len value ≤ 62 ∧ all_bytes label_char value = true.
Proof.
  unfold Part000.readSingleParameter.
  destruct (os_ReadFile fs attrPath) as [data|]; [|done].
  pose proof (collapse_runs_all label_char false
                (strip_leading label_char data) eq_refl) as Hall.
  case_decide.
  - rewrite slice_to_Some by lia. cbv [mbind option_bind]. intros Hv.
    assert (value = str_take (Z.to_nat 62) (collapse_runs label_char false
              (strip_leading label_char data))) as -> by congruence.
    split.
    + unfold len. rewrite length_str_take. lia.
    + by apply str_take_all_bytes.
  - intros [= <-]. split; [lia|done].
Qed.

Lemma label_value_empty : label_value "".
Proof. by repeat split. Qed.

Lemma part001_read_shape fs attrPath value :
  Part001.readSingleParameter fs attrPath = Some (value, None) →
  label_value value.
Proof.
  unfold Part001.readSingleParameter.
  destruct (os_Stat fs attrPath) as [[]|]; [| |done].
  { intros [= <-]. apply label_value_empty. }
  destruct (os_ReadFile fs attrPath) as [data|e].
  - destruct (convertToLabel_spec data) as (v & -> & H). simpl.
    by intros [= <-].
  - destruct (IsPermission e); [|done]. intros [= <-].
    apply label_value_empty.
Qed.

Lemma replace_runes_length ok k s :
  (String.length (replace_runes ok k s) ≤ String.length s)%nat.
Proof.
  revert k. induction s as [|a s IH]; intros k; [done|]. cbn [replace_runes].
  destruct k as [|k]; [|specialize (IH k); simpl; lia].
  destruct (ok a); cbn [String.length].
  - specialize (IH 0%nat). lia.
  - specialize (IH (Nat.pred (rune_width (String a s)))). lia.
Qed.
End ShapeFacts.

(** X12.  The ResultSet keeps the bounds of the two normalisers.  Every name
    has no [/] and at most 64 bytes (sysfs.go, part_000) or 55 (part_001);
    every value has at most 62 bytes, and is trimmed of ASCII white space
    (sysfs.go), made of [[-A-Za-z0-9_.]] (part_000), or of the shape that
    [convertToLabel] gives (part_001). *)
Theorem Discover_invariants SysfsDir_Path fs l f elements k v :
  elements !! k = Some v →
  (discovered (Sysfs.Discover SysfsDir_Path fs (with_whitelist l f)) elements →
   len k ≤ 64 ∧ no_slash k ∧ len v ≤ 62
   ∧ ∀ c, first_byte v = Some c ∨ last_byte v = Some c →
          ascii_space c = false)
  ∧ (discovered (Part000.Discover SysfsDir_Path fs (with_whitelist l f))
       elements →
     len k ≤ 64 ∧ no_slash k ∧ len v ≤ 62 ∧ all_bytes label_char v = true)
  ∧ (discovered (Part001.Discover SysfsDir_Path fs (with_whitelist l f))
       elements →
     len k ≤ 55 ∧ no_slash k ∧ label_value v).
Proof.
  intros Hk. split; [|split].
  - intros Hw%Sysfs_discovered_walk.
    destruct (walk_origin _ _ (sysfs_step_spec SysfsDir_Path fs)
                _ _ _ _ _ Hw Hk) as [Hm|(attr & _ & Hn & Hr)];
      [by rewrite lookup_empty in Hm|].
    destruct (simple_name_cap _ _ Hn). destruct (sysfs_read_shape _ _ _ Hr).
    done.
  - intros Hw%Part000_discovered_walk.
    destruct (walk_origin _ _ (part000_step_spec SysfsDir_Path fs)
                _ _ _ _ _ Hw Hk) as [Hm|(attr & _ & Hn & Hr)];
      [by rewrite lookup_empty in Hm|].
    destruct (simple_name_cap _ _ Hn). destruct (part000_read_shape _ _ _ Hr).
    done.
  - intros Hw%Part001_discovered_walk.
    destruct (walk_origin _ _ (part001_step_spec SysfsDir_Path fs)
                _ _ _ _ _ Hw Hk) as [Hm|(attr & _ & lp & _ & Hn & Hr)];
      [by rewrite lookup_empty in Hm|].
    destruct (refined_name_cap _ _ Hn).
    pose proof (part001_read_shape _ _ _ Hr). done.
Qed.

(** X13.  From [Discover] to [GetLabels] in sysfs.go: whatever the order in
    which the map is visited, every label handed out has a key of at most
    64 bytes and a value of at most 62, all of them in [[-A-Za-z0-9_.]]. *)
Theorem sysfs_labels_valid SysfsDir_Path fs s0 s1 labels err key value :
  Sysfs.Discover SysfsDir_Path fs s0 = Some (s1, None) →
  Sysfs.GetLabels s1 (labels, err) →
  labels !! key = Some value →
  err = None
  ∧ len key ≤ 64 ∧ all_bytes label_char key = true
  ∧ len value ≤ 62 ∧ all_bytes label_char value = true.
Proof.
  intros Hd Hg Hk.
  destruct (Sysfs_GetLabels_chars _ _ _ Hg) as [-> Hchars].
  destruct (Hchars _ _ Hk) as (Hck & Hcv & k0 & v0 & Hf & -> & ->).
  assert (Hw : walk (Sysfs.Discover_entry SysfsDir_Path fs)
                 (SysfsWhitelist (config s0)) ∅ = Some (GetFeatures s1)).
  { rewrite <- Sysfs_loop_walk. unfold Sysfs.Discover in Hd.
    destruct (Sysfs.Discover_loop _ _ _ ∅) as [m|]; simplify_eq/=. done. }
  destruct (walk_origin _ _ (sysfs_step_spec SysfsDir_Path fs)
              _ _ _ _ _ Hw Hf) as [Hm|(attr & _ & Hn & Hr)];
    [by rewrite lookup_empty in Hm|].
  destruct (simple_name_cap _ _ Hn) as [Hlk _].
  destruct (sysfs_read_shape _ _ _ Hr) as [Hlv _].
  pose proof (replace_runes_length label_char 0 k0).
  pose proof (replace_runes_length label_char 0 v0).
  unfold len in *. repeat split; try done; lia.
Qed.

Lemma Discover_sound_witness :
  ∃ attr, attr ∈ ["class/power_supply/BAT0/capacity"; "class/none"]
          ∧ part001_records demo_Path demo_fs attr
              "class.power_supply.BAT0.capacity" "87".
Proof.
  destruct (Discover_sound demo_Path demo_fs
              ["class/power_supply/BAT0/capacity"; "class/none"] None
              {["class.power_supply.BAT0.capacity" := "87"]}
              "class.power_supply.BAT0.capacity" "87") as (_ & _ & H).
  - apply lookup_singleton_eq.
  - apply H, Part001_discovered. vm_compute; reflexivity.
Defined.

Lemma Discover_last_wins_witness :
  ({["class.power_supply.BAT0.capacity" := "87"]} : gmap string string)
    !! "class.power_supply.BAT0.capacity" = Some "87".
Proof.
  destruct (Discover_last_wins demo_Path demo_fs
              ["class/none"] "/sys/class/power_supply/BAT0/capacity"
              ["class/none"] None
              {["class.power_supply.BAT0.capacity" := "87"]}
              "class.power_supply.BAT0.capacity" "87") as (_ & _ & H).
  apply H.
  - apply Part001_discovered. vm_compute; reflexivity.
  - exists "/class/power_supply/BAT0/capacity".
    repeat split; vm_compute; reflexivity.
  - intros attr' v' ->%list_elem_of_singleton (lp & Hlp & _ & Hr).
    vm_compute in Hlp. injection Hlp as <-. vm_compute in Hr. discriminate.
Defined.

Lemma Discover_skips_unrecorded_witness :
  ∃ elements,
    discovered
      (Part001.Discover demo_Path demo_fs
         (with_whitelist (["class"] ++ "class/none" :: ["a b"]) None))
      elements
    ∧ discovered
        (Part001.Discover demo_Path demo_fs
           (with_whitelist (["class"] ++ ["a b"]) None)) elements.
Proof.
  destruct (Discover_skips_unrecorded demo_Path demo_fs
              ["class"] "class/none" ["a b"] None) as (_ & _ & H).
  apply H. intros k v (lp & Hlp & _ & Hr).
  vm_compute in Hlp. injection Hlp as <-. vm_compute in Hr. discriminate.
Defined.

Lemma Discover_invariants_witness :
  len "class.power_supply.BAT0.capacity" ≤ 55
  ∧ no_slash "class.power_supply.BAT0.capacity"
  ∧ label_value "87".
Proof.
  destruct (Discover_invariants demo_Path demo_fs
              ["class/power_supply/BAT0/capacity"] None
              {["class.power_supply.BAT0.capacity" := "87"]}
              "class.power_supply.BAT0.capacity" "87") as (_ & _ & H).
  - apply lookup_singleton_eq.
  - apply H, Part001_discovered. vm_compute; reflexivity.
Defined.

Lemma sysfs_labels_valid_witness :
  (None : option error) = None
  ∧ len "a_b" ≤ 64 ∧ all_bytes label_char "a_b" = true
  ∧ len "x" ≤ 62 ∧ all_bytes label_char "x" = true.
Proof.
  apply (sysfs_labels_valid demo_Path demo_fs
           (with_whitelist ["a b"] None)
           (with_whitelist ["a b"] (Some {["a b" := "x"]}))
           {["a_b" := "x"]} None "a_b" "x").
  - vm_compute; reflexivity.
  - exists [("a b", "x")]. split; [|vm_compute; reflexivity].
    unfold range_order. vm_compute. reflexivity.
  - apply lookup_singleton_eq.
Defined.

(** ** Files that give no content *)





(** ** The paths that are looked up *)

Section LookupFacts.
Implicit Types (attr lp : string).


Lemma Sysfs_logical_path_fixed lp :
  cleaned_abs lp → Sysfs.logical_path lp = lp.
Proof. intros [Habs Hc]. by rewrite Sysfs_logical_path_abs. Qed.
End LookupFacts.


(** X17.  The looked-up path is a fixed point of the preparation in sysfs.go
    and part_000: written as a whitelist entry it is looked up as itself; so
    it is in part_001 unless it begins with [/sys], which would be taken off
    again. *)
Theorem logical_path_idempotent attr :
  Sysfs.logical_path (Sysfs.logical_path attr) = Sysfs.logical_path attr
  ∧ Part000.logical_path (Part000.logical_path attr)
    = Part000.logical_path attr
  ∧ (∀ lp, Part001.logical_path attr = Some lp →
           HasPrefix lp "/sys" = false →
           Part001.logical_path lp = Some lp).
Proof.
  pose proof (Sysfs_logical_path_fixed _ (Sysfs_logical_path_cleaned attr)).
  split; [done|]. split; [done|].
  intros lp Hlp Hp.
  destruct (Part001_logical_path_total attr) as (lp' & Hlp' & Hc).
  assert (lp' = lp) as -> by congruence.
  rewrite Part001_logical_path_other by done.
  by rewrite Sysfs_logical_path_fixed.
Qed.

Lemma logical_path_idempotent_witness :
  Part001.logical_path "/class/net" = Some "/class/net".
Proof.
  destruct (logical_path_idempotent "/sys/class/./net") as (_ & _ & H).
  apply H; reflexivity.
Defined.

(** ** More on the label export *)

Section ExportMore.
Implicit Types (s : sysfsSource) (m labels : gmap string string)
  (entries : list (string * string)).

Lemma Sysfs_range_app entries1 entries2 labels :
  Sysfs.GetLabels_range (entries1 ++ entries2) labels
  = Sysfs.GetLabels_range entries2 (Sysfs.GetLabels_range entries1 labels).
Proof.
  revert labels. induction entries1 as [|[k v] rest IH]; intros labels;
    simpl; [done|apply IH].
Qed.

Lemma Sysfs_range_clean entries labels :
  Forall (λ kv, all_bytes label_char kv.1 = true
                ∧ all_bytes label_char kv.2 = true) entries →
  Sysfs.GetLabels_range entries labels
  = Part001.GetLabels_range entries labels.
Proof.
  intros Hclean. revert labels.
  induction Hclean as [|[k v] rest [Hk Hv] _ IH]; intros labels; simpl;
    [done|].
  simpl in Hk, Hv. by rewrite !replace_runes_id, IH by done.
Qed.

Lemma Sysfs_GetLabels_clean s ret :
  (∀ k v, GetFeatures s !! k = Some v →
          all_bytes label_char k = true ∧ all_bytes label_char v = true) →
  Sysfs.GetLabels s ret → ret = (GetFeatures s, None).
Proof.
  intros Hclean (entries & Ho & ->). f_equal.
  rewrite Sysfs_range_clean; [by apply copy_range_order|].
  apply Forall_forall. intros [k v] Hin. apply Hclean.
  apply elem_of_map_to_list. unfold range_order in Ho. by rewrite <- Ho.
Qed.

(** Some order of the visit ends with a given entry. *)
Lemma Sysfs_GetLabels_last s k v :
  GetFeatures s !! k = Some v →
  ∃ ret, Sysfs.GetLabels s ret
         ∧ ret.1 !! replace_runes label_char 0 k
           = Some (replace_runes label_char 0 v).
Proof.
  intros Hk.
  exists (Sysfs.GetLabels_range
            (map_to_list (delete k (GetFeatures s)) ++ [(k, v)]) ∅, None).
  split.
  - eexists. split; [|done]. unfold range_order.
    rewrite <- (map_to_list_delete _ _ _ Hk).
    symmetry. apply Permutation_cons_append.
  - simpl. rewrite Sysfs_range_app. simpl. apply lookup_insert_eq.
Qed.
End ExportMore.

(** X18.  The pass of [GetLabels] in sysfs.go changes nothing in features
    that are clean: when every key and value is made of [[-A-Za-z0-9_.]],
    the labels are the features, in whatever order the map is visited. *)
Theorem GetLabels_clean_unchanged s ret :
  (∀ k v, GetFeatures s !! k = Some v →
          all_bytes label_char k = true ∧ all_bytes label_char v = true) →
  Sysfs.GetLabels s ret → ret = (GetFeatures s, None).
Proof. apply Sysfs_GetLabels_clean. Qed.

Lemma GetLabels_clean_unchanged_witness :
  ∃ ret, Sysfs.GetLabels
           (with_whitelist ["class"] (Some {["class" := ""]})) ret
         ∧ ret = ({["class" := ""]}, None).
Proof.
  destruct (GetLabels_returns (with_whitelist ["class"]
                                 (Some {["class" := ""]}))) as [[ret Hret] _].
  exists ret. split; [done|].
  refine (GetLabels_clean_unchanged
            (with_whitelist ["class"] (Some {["class" := ""]})) ret _ Hret).
  intros k v Hkv.
  change (({["class" := ""]} : gmap string string) !! k = Some v) in Hkv.
  apply lookup_singleton_Some in Hkv as [<- <-]. done.
Defined.

(** X19.  The pass of [GetLabels] in sysfs.go can merge names, and then the
    order of the visit decides: when two features have the same key after
    the replacement and different values after it, one execution hands out
    the first value under that key and another the second. *)
Theorem GetLabels_order_dependent s k1 v1 k2 v2 :
  GetFeatures s !! k1 = Some v1 →
  GetFeatures s !! k2 = Some v2 →
  replace_runes label_char 0 k1 = replace_runes label_char 0 k2 →
  replace_runes label_char 0 v1 ≠ replace_runes label_char 0 v2 →
  ∃ ret1 ret2,
    Sysfs.GetLabels s ret1 ∧ Sysfs.GetLabels s ret2
    ∧ ret1.1 !! replace_runes label_char 0 k1
      = Some (replace_runes label_char 0 v1)
    ∧ ret2.1 !! replace_runes label_char 0 k1
      = Some (replace_runes label_char 0 v2)
    ∧ ret1 ≠ ret2.
Proof.
  intros H1 H2 Hk Hv.
  destruct (Sysfs_GetLabels_last s k1 v1 H1) as (ret1 & Hg1 & Hl1).
  destruct (Sysfs_GetLabels_last s k2 v2 H2) as (ret2 & Hg2 & Hl2).
  rewrite <- Hk in Hl2. exists ret1, ret2. repeat split; try done.
  intros ->. congruence.
Qed.

Lemma GetLabels_order_dependent_witness :
  let s := with_whitelist ["a b"; "a_b"]
             (Some (<["a b" := "1"]> {["a_b" := "2"]})) in
  ∃ ret1 ret2,
    Sysfs.GetLabels s ret1 ∧ Sysfs.GetLabels s ret2
    ∧ ret1.1 !! replace_runes label_char 0 "a b"
      = Some (replace_runes label_char 0 "1")
    ∧ ret2.1 !! replace_runes label_char 0 "a b"
      = Some (replace_runes label_char 0 "2")
    ∧ ret1 ≠ ret2.
Proof.
  intros s. apply (GetLabels_order_dependent s "a b" "1" "a_b" "2");
    vm_compute; (reflexivity || discriminate).
Defined.

(** X20.  Before any run of [Discover] the source has no features, and
    [GetLabels] hands out the empty map and no error, in the three
    versions. *)
Theorem GetLabels_before_Discover s ret :
  features s = None →
  (Sysfs.GetLabels s ret → ret = (∅, None))
  ∧ (Part000.GetLabels s ret → ret = (∅, None))
  ∧ (Part001.GetLabels s ret → ret = (∅, None)).
Proof.
  intros Hf.
  assert (Hm : GetFeatures s = ∅) by (unfold GetFeatures; by rewrite Hf).
  split; [|split]; intros Hg.
  - apply Sysfs_GetLabels_clean in Hg; [by rewrite Hg, Hm|].
    intros k v. rewrite Hm. by rewrite lookup_empty.
  - apply Part000_GetLabels_copy in Hg. by rewrite Hg, Hm.
  - apply Part001_GetLabels_copy in Hg. by rewrite Hg, Hm.
Qed.

Lemma GetLabels_before_Discover_witness :
  ∃ ret, Sysfs.GetLabels src ret ∧ ret = (∅, None).
Proof.
  destruct (GetLabels_returns src) as [[ret Hret] _].
  exists ret. split; [done|].
  destruct (GetLabels_before_Discover src ret) as (H & _ & _); [reflexivity|].
  by apply H.
Defined.

(** ** The default configuration and its root *)

(** X21.  The default configuration has the single entry [""], which is
    looked up as the root [/] of the tree and named [""].  With the root a
    directory, sysfs.go and part_000 discover nothing and part_001 leaves
    one entry, the empty name with the empty value. *)
Theorem default_config_root SysfsDir_Path fs :
  fs (SysfsDir_Path "/") = Directory →
  GetConfig src = NewConfig
  ∧ discovered (Sysfs.Discover SysfsDir_Path fs src) ∅
  ∧ discovered (Part000.Discover SysfsDir_Path fs src) ∅
  ∧ discovered (Part001.Discover SysfsDir_Path fs src) {["" := ""]}.
Proof.
  intros Hfs. split; [done|]. split; [|split].
  - apply (Sysfs_discovered SysfsDir_Path fs [""] None). simpl.
    unfold Sysfs.Discover_entry. change (Sysfs.logical_path "") with "/".
    unfold Sysfs.readSingleParameter, os_Open. by rewrite Hfs.
  - apply (Part000_discovered SysfsDir_Path fs [""] None). simpl.
    unfold Part000.Discover_entry. change (Part000.logical_path "") with "/".
    unfold Part000.readSingleParameter, os_ReadFile. by rewrite Hfs.
  - apply (Part001_discovered SysfsDir_Path fs [""] None). simpl.
    unfold Part001.Discover_entry.
    change (Part001.logical_path "") with (Some "/"). simpl.
    unfold Part001.readSingleParameter, os_Stat. by rewrite Hfs.
Qed.

Lemma default_config_root_witness :
  let fs : filesystem := λ path,
    if decide (path = "/host-sys") then Directory else Absent in
  GetConfig src = NewConfig
  ∧ discovered (Sysfs.Discover demo_Path fs src) ∅
  ∧ discovered (Part000.Discover demo_Path fs src) ∅
  ∧ discovered (Part001.Discover demo_Path fs src) {["" := ""]}.
Proof.
  intros fs. apply (default_config_root demo_Path fs). reflexivity.
Defined.

(** ** Two more facts on the sanitisers *)

Section SanitiserMore.
Implicit Types (s : string) (c : ascii).

Lemma all_edge_all_char s :
  all_bytes label_edge s = true → all_bytes label_char s = true.
Proof.
  induction s as [|a s IH]; [done|]. simpl. intros [Ha Hs]%andb_prop.
  by rewrite (label_edge_char a Ha), IH.
Qed.

Lemma all_bytes_first P s c :
  all_bytes P s = true → first_byte s = Some c → P c = true.
Proof. destruct s; [done|]. simpl. by intros [? _]%andb_prop [= <-]. Qed.

Lemma all_bytes_last P s c :
  all_bytes P s = true → last_byte s = Some c → P c = true.
Proof.
  induction s as [|a s IH]; [done|]. cbn [all_bytes].
  intros [Ha Hs]%andb_prop. destruct s as [|b t]; [by intros [= <-]|].
  intros Hl. by apply IH.
Qed.

Lemma collapse_runs_empty_iff ok s :
  ok "_"%char = true → s ≠ "" → collapse_runs ok false s ≠ "".
Proof.
  intros Hu. destruct s as [|a s]; [done|]. intros _. simpl.
  by destruct (ok a).
Qed.
End SanitiserMore.

(** X22.  The sanitiser of part_000 on a regular file never fails: it
    returns a value of at most 62 bytes, all in [[-A-Za-z0-9_.]], the same
    as the content when the content has that form already, and empty
    exactly when the content holds no byte of that class. *)
Theorem part000_value fs attrPath data :
  fs attrPath = Regular data →
  ∃ value,
    Part000.readSingleParameter fs attrPath = Some (value, None)
    ∧ len value ≤ 62
    ∧ all_bytes label_char value = true
    ∧ (value = "" ↔ all_bytes (λ c, negb (label_char c)) data = true)
    ∧ (len data ≤ 62 → all_bytes label_char data = true → value = data).
Proof.
  intros Hfs.
  destruct (Part000_readSingleParameter_total fs attrPath) as [[value err] Hr].
  assert (err = None) as ->.
  { revert Hr. unfold Part000.readSingleParameter, os_ReadFile.
    rewrite Hfs. case_decide; [|by intros [= _ <-]].
    rewrite slice_to_Some by lia. cbv [mbind option_bind]. congruence. }
  exists value. split; [done|].
  destruct (part000_read_shape _ _ _ Hr) as [Hlen Hall].
  split; [done|]. split; [done|].
  revert Hr. unfold Part000.readSingleParameter, os_ReadFile. rewrite Hfs.
  set (v1 := strip_leading label_char data).
  set (v2 := collapse_runs label_char false v1).
  intros Hr.
  assert (Hv : value = str_take 62 v2).
  { revert Hr. case_decide.
    - rewrite slice_to_Some by lia. cbv [mbind option_bind]. intros Hr.
      assert (value = str_take (Z.to_nat 62) v2) as -> by congruence.
      reflexivity.
    - intros [= <-]. symmetry. apply str_take_all. unfold len in *. lia. }
  split.
  - rewrite <- (strip_leading_empty label_char data). fold v1. split.
    + intros Hval. destruct v1 as [|a r] eqn:Hv1; [done|]. exfalso.
      assert (v2 ≠ "") by (by apply collapse_runs_empty_iff).
      rewrite Hv in Hval. by destruct v2.
    + intros Hv1. subst v2. rewrite Hv1 in Hv. by rewrite Hv.
  - intros Hd Hclean. rewrite Hv. subst v2 v1.
    destruct (decide (data = "")) as [->|Hne]; [done|].
    destruct (first_byte_is_Some data Hne) as [a Ha].
    rewrite (strip_leading_id label_char data a Ha)
      by (by apply (all_bytes_first label_char data)).
    rewrite collapse_runs_id by done. apply str_take_all.
    unfold len in *. lia.
Qed.

Lemma part000_value_witness :
  ∃ value,
    Part000.readSingleParameter demo_fs "/host-sys/a b" = Some (value, None)
    ∧ len value ≤ 62
    ∧ all_bytes label_char value = true
    ∧ (value = "" ↔ all_bytes (λ c, negb (label_char c)) "x" = true)
    ∧ (len "x" ≤ 62 → all_bytes label_char "x" = true → value = "x").
Proof. apply (part000_value demo_fs "/host-sys/a b" "x"). reflexivity. Defined.

(** X23.  Values are cut at the end, where names are cut at the start: on a
    content made of [[-A-Za-z0-9]] only, [convertToLabel] returns its first
    62 bytes. *)
Theorem convertToLabel_keeps_prefix str :
  all_bytes label_edge str = true →
  Part001.convertToLabel str = Some (str_take 62 str).
Proof.
  intros Hall. unfold Part001.convertToLabel. case_decide as Hne; [by subst|].
  destruct (first_byte_is_Some str Hne) as [a Ha].
  rewrite (strip_leading_id label_edge str a Ha)
    by (by apply (all_bytes_first label_edge str)).
  rewrite collapse_runs_id by (by apply all_edge_all_char).
  assert (Hcut : (if decide (len str > 62) then slice_to str 62 else Some str)
                 = Some (str_take 62 str)).
  { case_decide; [by apply slice_to_Some; lia|].
    f_equal. symmetry. apply str_take_all. unfold len in *. lia. }
  rewrite Hcut. cbv [mbind option_bind]. f_equal.
  assert (Hne' : str_take 62 str ≠ "") by (by destruct str).
  destruct (last_byte_is_Some _ Hne') as [z Hz].
  apply (strip_trailing_id label_edge _ z Hz).
  apply (all_bytes_last label_edge (str_take 62 str)); [|done].
  by apply str_take_all_bytes.
Qed.

Lemma convertToLabel_keeps_prefix_witness :
  Part001.convertToLabel
    "0123456789abcdefghijklmnopqrstuvwxyzABCDEFGHIJKLMNOPQRSTUVWXYZ-0123"
  = Some (str_take 62
    "0123456789abcdefghijklmnopqrstuvwxyzABCDEFGHIJKLMNOPQRSTUVWXYZ-0123").
Proof.
  apply (convertToLabel_keeps_prefix
    "0123456789abcdefghijklmnopqrstuvwxyzABCDEFGHIJKLMNOPQRSTUVWXYZ-0123").
  reflexivity.
Defined.

(** ** Entries recorded with the empty value, at any place of the whitelist *)

Section EmptyValue.
Variable SysfsDir_Path : string → string.
Variable fs : filesystem.
Implicit Types (attr lp : string) (pre post : list string).

(** An entry of part_001 whose path is read as the empty value: at its turn
    the entry is put into the ResultSet under its name with that value, and
    it is there at the end of the run unless a later entry is recorded under
    the same name. *)
Lemma Part001_empty_entry_anywhere pre attr post f lp :
  Part001.logical_path attr = Some lp →
  Part001.readSingleParameter fs (SysfsDir_Path lp) = Some ("", None) →
  ∃ name before,
    Part001.buildAttributeName lp = Some name
    ∧ discovered
        (Part001.Discover SysfsDir_Path fs (with_whitelist pre f)) before
    ∧ Part001.Discover_loop SysfsDir_Path fs (pre ++ attr :: post) ∅
      = Part001.Discover_loop SysfsDir_Path fs post (<[name := ""]> before)
    ∧ ∀ elements,
        discovered
          (Part001.Discover SysfsDir_Path fs
             (with_whitelist (pre ++ attr :: post) f)) elements →
        (∀ attr' v', attr' ∈ post →
                     ¬ part001_records SysfsDir_Path fs attr' name v') →
        elements !! name = Some "".
Proof.
  intros Hlp Hread.
  destruct (Part001_Discover_loop_total SysfsDir_Path fs pre ∅)
    as [before Hpre].
  destruct (Part001_logical_path_total attr) as (lp' & Hlp' & Habs & _).
  assert (lp' = lp) as -> by congruence.
  destruct (buildAttributeName_total _ Habs) as (_ & name & _ & _ & Hname).
  exists name, before. split; [done|].
  split; [by apply Part001_discovered|]. split.
  - rewrite Part001_Discover_loop_app, Hpre. simpl.
    unfold Part001.Discover_entry. rewrite Hlp. simpl.
    rewrite Hread. simpl. by rewrite Hname.
  - intros elements Hw%Part001_discovered_walk Hlater.
    apply (walk_last_wins _ _ (part001_step_spec SysfsDir_Path fs)
             (part001_records_fun SysfsDir_Path fs) _ _ _ _ _ _ _ Hw);
      [|done].
    by exists lp.
Qed.
End EmptyValue.

(** C6 (as amended).  A whitelist entry, at any place of the whitelist, that
    resolves to a directory.  part_001 returns the empty value for it and
    puts the entry into the ResultSet with that value at its turn; the
    ResultSet of the run holds the entry with the empty value unless a later
    whitelist entry is recorded under the same name.  sysfs.go opens the
    directory, fails to read it, and the entry is skipped: the ResultSet is
    that of the whitelist without the entry. *)
Theorem Discover_directory SysfsDir_Path fs pre attr post f :
  (∀ lp, Part001.logical_path attr = Some lp →
         fs (SysfsDir_Path lp) = Directory →
         Part001.readSingleParameter fs (SysfsDir_Path lp) = Some ("", None)
         ∧ ∃ name before,
             Part001.buildAttributeName lp = Some name
             ∧ discovered
                 (Part001.Discover SysfsDir_Path fs (with_whitelist pre f))
                 before
             ∧ Part001.Discover_loop SysfsDir_Path fs (pre ++ attr :: post) ∅
               = Part001.Discover_loop SysfsDir_Path fs post
                   (<[name := ""]> before)
             ∧ ∀ elements,
                 discovered
                   (Part001.Discover SysfsDir_Path fs
                      (with_whitelist (pre ++ attr :: post) f)) elements →
                 (∀ attr' v', attr' ∈ post →
                    ¬ part001_records SysfsDir_Path fs attr' name v') →
                 elements !! name = Some "")
  ∧ (fs (SysfsDir_Path (Sysfs.logical_path attr)) = Directory →
     Sysfs.readSingleParameter fs (SysfsDir_Path (Sysfs.logical_path attr))
     = ("", Some (FailedToRead (SysfsDir_Path (Sysfs.logical_path attr))
                    EISDIR))
     ∧ ∃ elements,
         discovered
           (Sysfs.Discover SysfsDir_Path fs
              (with_whitelist (pre ++ attr :: post) f)) elements
         ∧ discovered
             (Sysfs.Discover SysfsDir_Path fs (with_whitelist (pre ++ post) f))
             elements).
Proof.
  split.
  - intros lp Hlp Hdir.
    assert (Hread : Part001.readSingleParameter fs (SysfsDir_Path lp)
                    = Some ("", None)).
    { unfold Part001.readSingleParameter, os_Stat. by rewrite Hdir. }
    split; [done|]. by apply Part001_empty_entry_anywhere.
  - intros Hdir.
    assert (Hread : Sysfs.readSingleParameter fs
                      (SysfsDir_Path (Sysfs.logical_path attr))
                    = ("", Some (FailedToRead
                         (SysfsDir_Path (Sysfs.logical_path attr)) EISDIR))).
    { unfold Sysfs.readSingleParameter, os_Open. by rewrite Hdir. }
    split; [done|].
    destruct (Sysfs_Discover_loop_total SysfsDir_Path fs (pre ++ post) ∅)
      as [elements Hrun].
    exists elements. split; apply Sysfs_discovered; [|done].
    rewrite Sysfs_skip_entry; [done|].
    intros m. unfold Sysfs.Discover_entry. by rewrite Hread.
Qed.

(** The directory [a/b] is the second of three entries; the file [a.b]
    before it has the same name and is overwritten, the entry after it has
    another name. *)
Lemma Discover_directory_witness :
  Part001.logical_path "a/b" = Some "/a/b"
  ∧ collide_fs (demo_Path "/a/b") = Directory
  ∧ collide_fs (demo_Path (Sysfs.logical_path "a/b")) = Directory
  ∧ (∃ elements,
       discovered
         (Part001.Discover demo_Path collide_fs
            (with_whitelist (["a.b"] ++ "a/b" :: ["k.secret"]) None))
         elements
       ∧ elements !! "a.b" = Some "")
  ∧ (∃ elements,
       discovered
         (Sysfs.Discover demo_Path collide_fs
            (with_whitelist (["a.b"] ++ "a/b" :: ["k.secret"]) None))
         elements
       ∧ discovered
           (Sysfs.Discover demo_Path collide_fs
              (with_whitelist (["a.b"] ++ ["k.secret"]) None)) elements).
Proof.
  pose proof (Discover_directory demo_Path collide_fs
    ["a.b"] "a/b" ["k.secret"] None) as [H1 H2].
  split; [reflexivity|]. split; [reflexivity|]. split; [reflexivity|].
  split; [|apply H2; reflexivity].
  destruct (H1 "/a/b" eq_refl eq_refl)
    as (_ & name & before & Hname & _ & _ & Hfinal).
  assert (name = "a.b") as -> by (vm_compute in Hname; congruence).
  exists (<["k.secret" := "7"]> {["a.b" := ""]}). split.
  - apply Part001_discovered. vm_compute; reflexivity.
  - apply Hfinal; [apply Part001_discovered; vm_compute; reflexivity|].
    intros attr' v' ->%list_elem_of_singleton (lp & Hlp & Hn & _).
    vm_compute in Hlp. injection Hlp as <-. vm_compute in Hn. discriminate.
Defined.

(** C6, as stated, fails for part_001 when a later entry has the same name:
    the directory [a/b] and the file [a.b] are both named [a.b], and the run
    leaves the value of the file, not the empty value. *)
Lemma directory_entry_overwritten :
  Part001.logical_path "a/b" = Some "/a/b"
  ∧ collide_fs (demo_Path "/a/b") = Directory
  ∧ Part001.Discover demo_Path collide_fs (with_whitelist ["a/b"; "a.b"] None)
    = Some (with_whitelist ["a/b"; "a.b"] (Some {["a.b" := "7"]}), None)
  ∧ ∀ k, ({["a.b" := "7"]} : gmap string string) !! k ≠ Some "".
Proof.
  split; [reflexivity|]. split; [reflexivity|].
  split; [vm_compute; reflexivity|].
  intros k Hk. by apply lookup_singleton_Some in Hk as [_ ?].
Qed.

(** C7 (as amended).  A whitelist entry of part_001, at any place of the
    whitelist, that resolves to a regular file whose content cannot be read
    for lack of permission: [readSingleParameter] returns the empty value and
    no error, the entry is put into the ResultSet with the empty value at
    its turn, and the ResultSet of the run holds it with the empty value
    unless a later whitelist entry is recorded under the same name. *)
Theorem Discover_permission_denied SysfsDir_Path fs pre attr post lp f :
  Part001.logical_path attr = Some lp →
  fs (SysfsDir_Path lp) = Unreadable EACCES →
  Part001.readSingleParameter fs (SysfsDir_Path lp) = Some ("", None)
  ∧ ∃ name before,
      Part001.buildAttributeName lp = Some name
      ∧ discovered
          (Part001.Discover SysfsDir_Path fs (with_whitelist pre f)) before
      ∧ Part001.Discover_loop SysfsDir_Path fs (pre ++ attr :: post) ∅
        = Part001.Discover_loop SysfsDir_Path fs post (<[name := ""]> before)
      ∧ ∀ elements,
          discovered
            (Part001.Discover SysfsDir_Path fs
               (with_whitelist (pre ++ attr :: post) f)) elements →
          (∀ attr' v', attr' ∈ post →
             ¬ part001_records SysfsDir_Path fs attr' name v') →
          elements !! name = Some "".
Proof.
  intros Hlp Hfs.
  assert (Hread : Part001.readSingleParameter fs (SysfsDir_Path lp)
                  = Some ("", None)).
  { unfold Part001.readSingleParameter, os_Stat, os_ReadFile. by rewrite Hfs. }
  split; [done|]. by apply Part001_empty_entry_anywhere.
Qed.

Lemma Discover_permission_denied_witness :
  Part001.logical_path "/sys/k/secret" = Some "/k/secret"
  ∧ collide_fs (demo_Path "/k/secret") = Unreadable EACCES
  ∧ ∃ elements,
      discovered
        (Part001.Discover demo_Path collide_fs
           (with_whitelist (["k.secret"] ++ "/sys/k/secret" :: ["a/b"]) None))
        elements
      ∧ elements !! "k.secret" = Some "".
Proof.
  split; [reflexivity|]. split; [reflexivity|].
  destruct (Discover_permission_denied demo_Path collide_fs
              ["k.secret"] "/sys/k/secret" ["a/b"] "/k/secret" None
              eq_refl eq_refl)
    as (_ & name & before & Hname & _ & _ & Hfinal).
  assert (name = "k.secret") as -> by (vm_compute in Hname; congruence).
  exists (<["a.b" := ""]> {["k.secret" := ""]}). split.
  - apply Part001_discovered. vm_compute; reflexivity.
  - apply Hfinal; [apply Part001_discovered; vm_compute; reflexivity|].
    intros attr' v' ->%list_elem_of_singleton (lp & Hlp & Hn & _).
    vm_compute in Hlp. injection Hlp as <-. vm_compute in Hn. discriminate.
Defined.

(** C7, as stated, fails when a later entry has the same name: the unreadable
    file [k/secret] and the file [k.secret] are both named [k.secret], and
    the run leaves the value of the second, not the empty value. *)
Lemma denied_entry_overwritten :
  Part001.logical_path "k/secret" = Some "/k/secret"
  ∧ collide_fs (demo_Path "/k/secret") = Unreadable EACCES
  ∧ Part001.Discover demo_Path collide_fs
      (with_whitelist ["k/secret"; "k.secret"] None)
    = Some (with_whitelist ["k/secret"; "k.secret"]
              (Some {["k.secret" := "7"]}), None)
  ∧ ∀ k, ({["k.secret" := "7"]} : gmap string string) !! k ≠ Some "".
Proof.
  split; [reflexivity|]. split; [reflexivity|].
  split; [vm_compute; reflexivity|].
  intros k Hk. by apply lookup_singleton_Some in Hk as [_ ?].
Qed.

(** ** The leading [/sys] of part_001 *)

Section StripFacts.
Variable SysfsDir_Path : string → string.
Variable fs : filesystem.
Implicit Types (attr rest lp : string) (elements : gmap string string).

(** A turn of part_001 is decided by the looked-up path of the entry. *)
Lemma Part001_Discover_entry_path elements attr lp :
  Part001.logical_path attr = Some lp →
  Part001.Discover_entry SysfsDir_Path fs elements attr
  = (ret ← Part001.readSingleParameter fs (SysfsDir_Path lp);
     match ret with
     | (_, Some _) => Some elements
     | (paramVal, None) =>
         name ← Part001.buildAttributeName lp;
         Some (<[name := paramVal]> elements)
     end).
Proof. intros Hlp. unfold Part001.Discover_entry. by rewrite Hlp. Qed.

Lemma Part001_same_path_same_turn elements attr attr' :
  Part001.logical_path attr = Part001.logical_path attr' →
  Part001.Discover_entry SysfsDir_Path fs elements attr
  = Part001.Discover_entry SysfsDir_Path fs elements attr'.
Proof. intros Heq. unfold Part001.Discover_entry. by rewrite Heq. Qed.

Lemma Part001_same_path_same_run pre post attr attr' elements :
  Part001.logical_path attr = Part001.logical_path attr' →
  Part001.Discover_loop SysfsDir_Path fs (pre ++ attr :: post) elements
  = Part001.Discover_loop SysfsDir_Path fs (pre ++ attr' :: post) elements.
Proof.
  intros Heq. rewrite !Part001_Discover_loop_app.
  destruct (Part001.Discover_loop _ _ pre elements) as [m|]; simpl; [|done].
  by rewrite (Part001_same_path_same_turn m attr attr' Heq).
Qed.

Lemma Part001_logical_path_sys_slash rest :
  IsAbs rest = false →
  Part001.logical_path ("/sys/" +:+ rest) = Part001.logical_path rest
  ∧ Part001.logical_path rest = Some (Clean (String "/" rest)).
Proof.
  intros Hrel. change ("/sys/" +:+ rest) with ("/sys" +:+ String "/" rest).
  rewrite Part001_logical_path_sys.
  rewrite Part001_logical_path_other by (by apply IsAbs_false_no_sys).
  rewrite (Sysfs_logical_path_rel rest) by done.
  by rewrite (Sysfs_logical_path_abs (String "/" rest)).
Qed.
End StripFacts.

(** C10.  Only part_001 takes a leading [/sys] off a whitelist entry: the
    four bytes go, whatever follows them, and what is left is joined under
    [/] and cleaned like any entry; that path is the one handed to
    [SysfsDir.Path], read and named by [Discover].  So [/sys/class/x] and
    [class/x] are looked up and named alike, in the turn of the loop and in
    the whole run, and [/system] is looked up as [/tem] and named [tem];
    sysfs.go and part_000 keep the prefix and look up [/sys/class/x], named
    [sys.class.x]. *)
Theorem Discover_strips_sys SysfsDir_Path fs elements rest pre post f :
  Part001.logical_path ("/sys" +:+ rest)
  = Some (Clean (if negb (IsAbs rest) then Join ["/"; rest] else rest))
  ∧ Part001.Discover_entry SysfsDir_Path fs elements ("/sys" +:+ rest)
    = (ret ← Part001.readSingleParameter fs
               (SysfsDir_Path
                  (Clean (if negb (IsAbs rest) then Join ["/"; rest]
                          else rest)));
       match ret with
       | (_, Some _) => Some elements
       | (paramVal, None) =>
           name ← Part001.buildAttributeName
                    (Clean (if negb (IsAbs rest) then Join ["/"; rest]
                            else rest));
           Some (<[name := paramVal]> elements)
       end)
  ∧ (IsAbs rest = false →
     Part001.logical_path ("/sys/" +:+ rest) = Part001.logical_path rest
     ∧ Part001.Discover_entry SysfsDir_Path fs elements ("/sys/" +:+ rest)
       = Part001.Discover_entry SysfsDir_Path fs elements rest
     ∧ Part001.Discover SysfsDir_Path fs
         (with_whitelist (pre ++ ("/sys/" +:+ rest) :: post) f)
       = (λ ret, (with_whitelist (pre ++ ("/sys/" +:+ rest) :: post)
                    (features ret.1), ret.2))
         <$> Part001.Discover SysfsDir_Path fs
               (with_whitelist (pre ++ rest :: post) f))
  ∧ Part001.logical_path "/sys/class/x" = Some "/class/x"
  ∧ Part001.logical_path "class/x" = Some "/class/x"
  ∧ Part001.buildAttributeName "/class/x" = Some "class.x"
  ∧ Part001.Discover_entry SysfsDir_Path fs elements "/sys/class/x"
    = Part001.Discover_entry SysfsDir_Path fs elements "class/x"
  ∧ Part001.Discover_entry SysfsDir_Path fs elements "/sys/class/x"
    = (ret ← Part001.readSingleParameter fs (SysfsDir_Path "/class/x");
       match ret with
       | (_, Some _) => Some elements
       | (paramVal, None) => Some (<["class.x" := paramVal]> elements)
       end)
  ∧ Part001.logical_path "/system" = Some "/tem"
  ∧ Part001.Discover_entry SysfsDir_Path fs elements "/system"
    = (ret ← Part001.readSingleParameter fs (SysfsDir_Path "/tem");
       match ret with
       | (_, Some _) => Some elements
       | (paramVal, None) => Some (<["tem" := paramVal]> elements)
       end)
  ∧ Sysfs.logical_path "/sys/class/x" = "/sys/class/x"
  ∧ Part000.logical_path "/sys/class/x" = "/sys/class/x"
  ∧ Sysfs.logical_path "/system" = "/system"
  ∧ Sysfs.Discover_entry SysfsDir_Path fs elements "/sys/class/x"
    = match Sysfs.readSingleParameter fs (SysfsDir_Path "/sys/class/x") with
      | (_, Some _) => Some elements
      | (paramVal, None) => Some (<["sys.class.x" := paramVal]> elements)
      end.
Proof.
  pose proof (Part001_logical_path_sys rest) as Hsys.
  change (Sysfs.logical_path rest)
    with (Clean (if negb (IsAbs rest) then Join ["/"; rest] else rest))
    in Hsys.
  split; [done|].
  split; [by apply Part001_Discover_entry_path|].
  split.
  { intros Hrel.
    destruct (Part001_logical_path_sys_slash rest Hrel) as [Heq _].
    split; [done|]. split; [by apply Part001_same_path_same_turn|].
    unfold Part001.Discover. simpl.
    rewrite (Part001_same_path_same_run SysfsDir_Path fs pre post _ rest ∅ Heq).
    by destruct (Part001.Discover_loop _ _ (pre ++ rest :: post) ∅). }
  split; [vm_compute; reflexivity|]. split; [vm_compute; reflexivity|].
  split; [vm_compute; reflexivity|].
  split; [by apply Part001_same_path_same_turn|].
  split.
  { rewrite (Part001_Discover_entry_path SysfsDir_Path fs elements
               "/sys/class/x" "/class/x") by (vm_compute; reflexivity).
    by destruct (Part001.readSingleParameter _ _) as [[? []]|]. }
  split; [vm_compute; reflexivity|].
  split.
  { rewrite (Part001_Discover_entry_path SysfsDir_Path fs elements
               "/system" "/tem") by (vm_compute; reflexivity).
    by destruct (Part001.readSingleParameter _ _) as [[? []]|]. }
  split; [vm_compute; reflexivity|]. split; [vm_compute; reflexivity|].
  split; [vm_compute; reflexivity|].
  unfold Sysfs.Discover_entry.
  change (Sysfs.logical_path "/sys/class/x") with "/sys/class/x".
  by destruct (Sysfs.readSingleParameter _ _) as [? []].
Qed.

(** The capacity file under both spellings, in second place of the
    whitelist. *)
Lemma Discover_strips_sys_witness :
  IsAbs "class/power_supply/BAT0/capacity" = false
  ∧ Part001.Discover demo_Path demo_fs
      (with_whitelist
         (["class"] ++ ("/sys/" +:+ "class/power_supply/BAT0/capacity")
                    :: ["a b"]) None)
    = Some (with_whitelist
              (["class"] ++ ("/sys/" +:+ "class/power_supply/BAT0/capacity")
                         :: ["a b"])
              (Some (<["a b" := "x"]>
                       (<["class.power_supply.BAT0.capacity" := "87"]>
                          {["class" := ""]}))), None).
Proof.
  split; [reflexivity|].
  destruct (Discover_strips_sys demo_Path demo_fs ∅
              "class/power_supply/BAT0/capacity" ["class"] ["a b"] None)
    as (_ & _ & H & _).
  destruct (H eq_refl) as (_ & _ & ->). vm_compute; reflexivity.
Defined.
